(** * Career-roadmap front end: progress aggregation, quiz wizard,
      achievement badges and sign-up validation

    A shallow embedding of the client-side logic of the React screens
    [Dashboard.js], [Profile], [Quiz], [AchievementBadge] and [Signup.js],
    and the properties of that logic.

    JavaScript numbers are IEEE 754 binary64 values.  They are modelled
    by the bit-level specification [spec_float] of the standard library,
    instantiated at precision 53 and maximal exponent 1024; nothing is
    assumed about them. *)

From Stdlib Require Import ZArith List Bool String Ascii Lia PeanoNat Floats.SpecFloat.
Import ListNotations.

Local Open Scope Z_scope.

(* ================================================================== *)
(** ** JavaScript numbers                                             *)
(* ================================================================== *)

Module JSNumber.

Definition prec : Z := 53.
Definition emax : Z := 1024.

(** A JavaScript [Number]. *)
Definition Number : Type := spec_float.

Definition NaN : Number := S754_nan.
Definition Infinity : Number := S754_infinity false.

(** The number denoted by an integer literal or by an integer-valued
    property such as [Array.prototype.length]. *)
Definition of_Z (z : Z) : Number := binary_normalize prec emax z 0 false.
Definition of_nat (n : nat) : Number := of_Z (Z.of_nat n).

(** [x + y], [x * y] and [x / y] on numbers. *)
Definition add (x y : Number) : Number := SFadd prec emax x y.
Definition mul (x y : Number) : Number := SFmul prec emax x y.
Definition div (x y : Number) : Number := SFdiv prec emax x y.

(** [Math.round(x)]: the integral number closest to [x], the larger
    one when two are equally close; NaN, the infinities and the zeros
    are returned unchanged, and a result of zero keeps the sign of
    [x].  A finite number with a non-negative exponent is integral
    already. *)
Definition Math_round (x : Number) : Number :=
  match x with
  | S754_finite s m e =>
      if 0 <=? e then x
      else
        let k := (2 * cond_Zopp s (Zpos m) + 2 ^ (- e)) / 2 ^ (- e + 1) in
        if k =? 0 then S754_zero s else of_Z k
  | _ => x
  end.

(** The integer a number stands for, when it is integral. *)
Definition to_Z (x : Number) : option Z :=
  match x with
  | S754_zero _ => Some 0
  | S754_finite s m e =>
      if 0 <=? e then Some (cond_Zopp s (Zpos m) * 2 ^ e)
      else if (Zpos m) mod 2 ^ (- e) =? 0
           then Some (cond_Zopp s (Zpos m / 2 ^ (- e)))
           else None
  | _ => None
  end.

(** [located r num den]: the record [r] describes the rational
    [num / den]: [shr_m r] is its integer part and the two bits tell where
    the fractional part lies with respect to one half. *)
Definition located (r : shr_record) (num den : Z) : Prop :=
  0 < den /\ 0 <= shr_m r /\
  0 <= num - shr_m r * den < den /\
  shr_r r = (den <=? 2 * (num - shr_m r * den)) /\
  shr_s r = negb (num - shr_m r * den =? 0) && negb (2 * (num - shr_m r * den) =? den).

End JSNumber.

(* ================================================================== *)
(** ** JavaScript arrays                                              *)
(* ================================================================== *)

Module JSArray.

(** [Array.prototype.find]: the first element satisfying the
    predicate, [undefined] when there is none. *)
Definition find {A : Type} (f : A -> bool) (l : list A) : option A :=
  List.find f l.

(** An array that may have holes: a slot is [None] when it is empty
    (a hole, or [undefined]). *)
Definition sparse (A : Type) : Type := list (option A).

(** [a[i]]: [undefined] for a hole and past the end of the array. *)
Definition get {A : Type} (a : sparse A) (i : nat) : option A :=
  match nth_error a i with
  | Some (Some v) => Some v
  | _ => None
  end.

(** [a[i] = v].  JavaScript extends the array when [i] is past its
    end, leaving holes in between. *)
Fixpoint set {A : Type} (a : sparse A) (i : nat) (v : A) : sparse A :=
  match i, a with
  | O, [] => [Some v]
  | O, _ :: rest => Some v :: rest
  | S j, [] => None :: set [] j v
  | S j, x :: rest => x :: set rest j v
  end.

End JSArray.

(* ================================================================== *)
(** ** Progress aggregation (Dashboard.js)                            *)
(* ================================================================== *)

Module Dashboard.
Import JSNumber.

Record Milestone : Type := {
  milestone_id : string;
  estimated_days : nat
}.

Record CareerPath : Type := {
  id : string;
  name : string;
  milestones : list Milestone
}.

Record ProgressRecord : Type := {
  user_id : string;
  career_path_id : string;
  completed_milestones : list string
}.

Section Screen.
(** The two pieces of component state the derivations read. *)
Variable userProgress : list ProgressRecord.
Variable careerPaths : list CareerPath.

(** [getPathProgress]: 0 without a progress record, 0 without a
    catalog entry, else the rounded percentage. *)
Definition getPathProgress (pathId : string) : Number :=
  match JSArray.find (fun p => String.eqb (career_path_id p) pathId) userProgress with
  | None => of_Z 0
  | Some progress =>
      match JSArray.find (fun p => String.eqb (id p) pathId) careerPaths with
      | None => of_Z 0
      | Some path =>
          Math_round
            (mul (div (of_nat (List.length (completed_milestones progress)))
                      (of_nat (List.length (milestones path))))
                 (of_Z 100))
      end
  end.

(** The sum is a count of at most [userProgress.length] records, far
    below 2^53, so the number arithmetic of [sum + 1] is exact; it
    is kept as a natural number. *)
Definition getCompletedCount : nat :=
  fold_left
    (fun sum p =>
       match JSArray.find (fun cp => String.eqb (id cp) (career_path_id p)) careerPaths with
       | Some path =>
           if Nat.eqb (List.length (completed_milestones p)) (List.length (milestones path))
           then (sum + 1)%nat else sum
       | None => sum
       end)
    userProgress 0%nat.

Definition getTotalMilestonesCompleted : nat :=
  fold_left (fun sum p => (sum + List.length (completed_milestones p))%nat)
            userProgress 0%nat.

(** The expression of the "Average" tile. *)
Definition averageProgress : Number :=
  if (0 <? List.length userProgress)%nat
  then Math_round
         (div (fold_left (fun sum p => add sum (getPathProgress (career_path_id p)))
                         userProgress (of_Z 0))
              (of_nat (List.length userProgress)))
  else of_Z 0.

End Screen.

(** The rounded percentage of [c] completed milestones out of [m]:
    [Math.round((c / m) * 100)] on array lengths. *)
Definition percentage (c m : nat) : Number :=
  Math_round (mul (div (of_nat c) (of_nat m)) (of_Z 100)).

(** The data-model constraint on a progress record: its completed
    milestones are pairwise different identifiers of milestones of the
    path. *)
Fixpoint distinctb (l : list string) : bool :=
  match l with
  | [] => true
  | x :: rest => negb (existsb (String.eqb x) rest) && distinctb rest
  end.

Definition subset_of_milestones (p : ProgressRecord) (path : CareerPath) : bool :=
  distinctb (completed_milestones p)
  && forallb (fun i => existsb (String.eqb i) (map milestone_id (milestones path)))
             (completed_milestones p).

(** The number of distinct career paths occurring in a progress list. *)
Definition distinctPaths (userProgress : list ProgressRecord) : nat :=
  List.length (nodup string_dec (map career_path_id userProgress)).

(** A JavaScript array has fewer than 2^32 elements. *)
Definition array_length_ok {A : Type} (l : list A) : Prop :=
  Z.of_nat (List.length l) < 2 ^ 32.

End Dashboard.


(* ================================================================== *)
(** ** Profile statistics (Profile screen)                            *)
(* ================================================================== *)

Module Profile.
Import Dashboard.

Record Stats : Type := {
  totalPaths : nat;
  completedPaths : nat;
  totalMilestones : nat;
  achievementsCount : nat;
  certificatesCount : nat
}.

Record State : Type := {
  stats : Stats;
  loading : bool
}.

Definition initial : State :=
  {| stats := {| totalPaths := 0; completedPaths := 0; totalMilestones := 0;
                 achievementsCount := 0; certificatesCount := 0 |};
     loading := true |}.

(** What the three concurrent requests deliver when all of them
    succeed; [achievements] is [None] when the response has no such
    field. *)
Record Responses : Type := {
  progressRes : list ProgressRecord;
  achievementsRes : option (list string);
  pathsRes : list CareerPath
}.

(** [fetchStats]; [None] stands for a rejected [Promise.all], which
    is logged and leaves the statistics as they were. *)
Definition fetchStats (fetched : option Responses) (st : State) : State :=
  match fetched with
  | Some res =>
      let progress := progressRes res in
      let achievements := match achievementsRes res with Some a => a | None => [] end in
      let paths := pathsRes res in
      let completedPaths :=
        List.length
          (filter
             (fun p =>
                match JSArray.find (fun cp => String.eqb (id cp) (career_path_id p)) paths with
                | Some path =>
                    Nat.eqb (List.length (completed_milestones p))
                            (List.length (milestones path))
                | None => false
                end)
             progress) in
      let totalMilestones :=
        fold_left (fun sum p => (sum + List.length (completed_milestones p))%nat)
                  progress 0%nat in
      {| stats := {| totalPaths := List.length progress;
                     completedPaths := completedPaths;
                     totalMilestones := totalMilestones;
                     achievementsCount := List.length achievements;
                     certificatesCount := completedPaths |};
         loading := false |}
  | None => {| stats := stats st; loading := false |}
  end.

End Profile.

(* ================================================================== *)
(** ** Quiz wizard (Quiz screen)                                      *)
(* ================================================================== *)

Module Quiz.

Record QuizQuestion : Type := {
  question_id : string;
  question : string;
  options : list string
}.

Record QuizAnswer : Type := {
  answer_question_id : string;
  selected_option : nat
}.

(** The recommendation payload returned by the submission. *)
Record Recommendation : Type := {
  recommended_paths : list string;
  learning_style : string
}.

(** The component state, together with what the user has been shown
    through [alert] (latest first) and the bodies of the submissions
    that are still awaiting their response. *)
Record State : Type := {
  questions : list QuizQuestion;
  currentQuestion : nat;
  answers : JSArray.sparse QuizAnswer;
  loading : bool;
  submitting : bool;
  results : option Recommendation;
  alerts : list string;
  inflight : list (JSArray.sparse QuizAnswer)
}.

(** The state once the question list has been fetched. *)
Definition initial (qs : list QuizQuestion) : State :=
  {| questions := qs; currentQuestion := 0; answers := []; loading := false;
     submitting := false; results := None; alerts := []; inflight := [] |}.

Definition setAnswers (a : JSArray.sparse QuizAnswer) (st : State) : State :=
  {| questions := questions st; currentQuestion := currentQuestion st; answers := a;
     loading := loading st; submitting := submitting st; results := results st;
     alerts := alerts st; inflight := inflight st |}.

Definition setCurrentQuestion (i : nat) (st : State) : State :=
  {| questions := questions st; currentQuestion := i; answers := answers st;
     loading := loading st; submitting := submitting st; results := results st;
     alerts := alerts st; inflight := inflight st |}.

Definition setSubmitting (b : bool) (st : State) : State :=
  {| questions := questions st; currentQuestion := currentQuestion st;
     answers := answers st; loading := loading st; submitting := b;
     results := results st; alerts := alerts st; inflight := inflight st |}.

Definition setResults (r : Recommendation) (st : State) : State :=
  {| questions := questions st; currentQuestion := currentQuestion st;
     answers := answers st; loading := loading st; submitting := submitting st;
     results := Some r; alerts := alerts st; inflight := inflight st |}.

Definition alert (msg : string) (st : State) : State :=
  {| questions := questions st; currentQuestion := currentQuestion st;
     answers := answers st; loading := loading st; submitting := submitting st;
     results := results st; alerts := msg :: alerts st; inflight := inflight st |}.

Definition setInflight (l : list (JSArray.sparse QuizAnswer)) (st : State) : State :=
  {| questions := questions st; currentQuestion := currentQuestion st;
     answers := answers st; loading := loading st; submitting := submitting st;
     results := results st; alerts := alerts st; inflight := l |}.

(** [handleAnswer]; [None] is the TypeError of reading [.id] of an
    undefined question. *)
Definition handleAnswer (optionIndex : nat) (st : State) : option State :=
  match nth_error (questions st) (currentQuestion st) with
  | None => None
  | Some q =>
      Some (setAnswers
              (JSArray.set (answers st) (currentQuestion st)
                 {| answer_question_id := question_id q;
                    selected_option := optionIndex |})
              st)
  end.

Definition handleNext (st : State) : State :=
  if Z.of_nat (currentQuestion st) <? Z.of_nat (List.length (questions st)) - 1
  then setCurrentQuestion (currentQuestion st + 1) st
  else st.

Definition handlePrevious (st : State) : State :=
  if (0 <? currentQuestion st)%nat
  then setCurrentQuestion (currentQuestion st - 1) st
  else st.

(** The outcome of the POST to [/api/quiz/submit]. *)
Inductive Response : Type :=
| Resolved (data : Recommendation)
| Rejected.

(** [handleSubmit] up to its [await]: the length check, and the
    request sent with the answers as its body. *)
Definition handleSubmit_send (st : State) : State :=
  if negb (Nat.eqb (List.length (answers st)) (List.length (questions st)))
  then alert "Please answer all questions" st
  else setInflight (answers st :: inflight st) (setSubmitting true st).

(** [handleSubmit] after its [await], once the oldest request in
    flight is settled. *)
Definition handleSubmit_settle (r : Response) (st : State) : State :=
  let st := setInflight (removelast (inflight st)) st in
  match r with
  | Resolved data => setResults data st
  | Rejected =>
      setSubmitting false (alert "Failed to submit quiz. Please try again." st)
  end.

(** A whole run of [handleSubmit], the request being answered by
    [r] before any other event. *)
Definition handleSubmit (r : Response) (st : State) : State :=
  if negb (Nat.eqb (List.length (answers st)) (List.length (questions st)))
  then handleSubmit_send st
  else handleSubmit_settle r (handleSubmit_send st).

(** What the component renders. *)
Inductive View : Type :=
| LoadingView
| ResultsView (r : Recommendation)
| QuestionView.

Definition view (st : State) : View :=
  if loading st then LoadingView
  else match results st with
       | Some r => ResultsView r
       | None => QuestionView
       end.

(** The navigation buttons of the question view. *)
Definition previous_disabled (st : State) : bool :=
  Nat.eqb (currentQuestion st) 0.

Definition next_rendered (st : State) : bool :=
  Z.of_nat (currentQuestion st) <? Z.of_nat (List.length (questions st)) - 1.

Definition next_disabled (st : State) : bool :=
  match JSArray.get (answers st) (currentQuestion st) with
  | Some _ => false
  | None => true
  end.

Definition submit_disabled (st : State) : bool :=
  negb (Nat.eqb (List.length (answers st)) (List.length (questions st)))
  || submitting st.

(** The question on display: the question view renders only when the
    current index designates a question (the render reads
    [question.question]). *)
Definition displayed (st : State) : option QuizQuestion :=
  match view st with
  | QuestionView => nth_error (questions st) (currentQuestion st)
  | _ => None
  end.

(** The events of the wizard.  A button fires its handler only while
    it is rendered and enabled; the option buttons are those of the
    question on display. *)
Inductive step : State -> State -> Prop :=
| step_answer st q optionIndex st' :
    displayed st = Some q ->
    (optionIndex < List.length (options q))%nat ->
    handleAnswer optionIndex st = Some st' ->
    step st st'
| step_next st q :
    displayed st = Some q ->
    next_rendered st = true ->
    next_disabled st = false ->
    step st (handleNext st)
| step_previous st q :
    displayed st = Some q ->
    previous_disabled st = false ->
    step st (handlePrevious st)
| step_submit st q :
    displayed st = Some q ->
    next_rendered st = false ->
    submit_disabled st = false ->
    step st (handleSubmit_send st)
| step_settle st r :
    inflight st <> [] ->
    step st (handleSubmit_settle r st).

Inductive reachable (qs : list QuizQuestion) : State -> Prop :=
| reachable_initial : reachable qs (initial qs)
| reachable_step st st' : reachable qs st -> step st st' -> reachable qs st'.

(** A slot of the answers array is empty when reading it gives
    [undefined]. *)
Definition slot_empty (st : State) (i : nat) : Prop :=
  JSArray.get (answers st) i = None.

(** What every reachable state satisfies: the answers array has no
    hole, is no longer than the question list, and reaches at least up
    to the current question. *)
Definition invariant (st : State) : Prop :=
  (List.length (answers st) <= List.length (questions st))%nat /\
  Forall (fun slot => slot <> None) (answers st) /\
  (currentQuestion st <= List.length (answers st))%nat.

End Quiz.

(* ================================================================== *)
(** ** Achievement badges (AchievementBadge component)                *)
(* ================================================================== *)

Module Achievements.
Local Open Scope string_scope.

Record Achievement : Type := {
  name : string;
  description : string;
  icon : string;
  color : string
}.

(** The own properties of the [ACHIEVEMENT_DATA] object literal. *)
Definition ACHIEVEMENT_DATA : list (string * Achievement) :=
  [ ("first_step",
     {| name := "First Step"; description := "Complete your first milestone";
        icon := "🎯"; color := "#10B981" |});
    ("halfway_hero",
     {| name := "Halfway Hero"; description := "Complete 50% of a career path";
        icon := "🚀"; color := "#3B82F6" |});
    ("path_master",
     {| name := "Path Master"; description := "Complete an entire career path";
        icon := "👑"; color := "#F59E0B" |});
    ("speed_demon",
     {| name := "Speed Demon"; description := "Complete a path in record time";
        icon := "⚡"; color := "#EF4444" |});
    ("multi_path",
     {| name := "Multi-Path Master"; description := "Complete 3 different career paths";
        icon := "🌟"; color := "#8B5CF6" |}) ].

(** What [ACHIEVEMENT_DATA[key]] can evaluate to: an entry of the
    table, or, the literal being an ordinary object, a member it
    inherits from [Object.prototype]: one of the built-in functions,
    or the prototype object itself for the key [__proto__]. *)
Inductive Value : Type :=
| Entry (a : Achievement)
| BuiltinFunction (function_name : string)
| ObjectPrototype.

(** The property names every ordinary object inherits. *)
Definition Object_prototype : list (string * Value) :=
  [ ("constructor", BuiltinFunction "Object");
    ("hasOwnProperty", BuiltinFunction "hasOwnProperty");
    ("isPrototypeOf", BuiltinFunction "isPrototypeOf");
    ("propertyIsEnumerable", BuiltinFunction "propertyIsEnumerable");
    ("toLocaleString", BuiltinFunction "toLocaleString");
    ("toString", BuiltinFunction "toString");
    ("valueOf", BuiltinFunction "valueOf");
    ("__defineGetter__", BuiltinFunction "__defineGetter__");
    ("__defineSetter__", BuiltinFunction "__defineSetter__");
    ("__lookupGetter__", BuiltinFunction "__lookupGetter__");
    ("__lookupSetter__", BuiltinFunction "__lookupSetter__");
    ("__proto__", ObjectPrototype) ].

Fixpoint assoc {A : Type} (key : string) (l : list (string * A)) : option A :=
  match l with
  | [] => None
  | (k, v) :: rest => if String.eqb k key then Some v else assoc key rest
  end.

(** [ACHIEVEMENT_DATA[key]]: the own property when there is one, else
    the inherited one, else [undefined]. *)
Definition lookup (key : string) : option Value :=
  match assoc key ACHIEVEMENT_DATA with
  | Some a => Some (Entry a)
  | None => assoc key Object_prototype
  end.

(** Reading [.name], [.description], [.icon] and [.color] off the
    value found; [None] is [undefined].  A function has a [name]. *)
Definition get_name (v : Value) : option string :=
  match v with
  | Entry a => Some (name a)
  | BuiltinFunction f => Some f
  | ObjectPrototype => None
  end.

Definition get_description (v : Value) : option string :=
  match v with Entry a => Some (description a) | _ => None end.

Definition get_icon (v : Value) : option string :=
  match v with Entry a => Some (icon a) | _ => None end.

Definition get_color (v : Value) : option string :=
  match v with Entry a => Some (color a) | _ => None end.

Inductive Size : Type := small | medium | large.

Definition sizeClasses (size : Size) : string :=
  match size with
  | small => "achievement-small"
  | medium => "achievement-medium"
  | large => "achievement-large"
  end.

(** Interpolation into a template literal. *)
Definition interpolate (v : option string) : string :=
  match v with Some s => s | None => "undefined" end.

(** The element rendered by the component.  A child that is
    [undefined] renders as nothing: the span is there, without text. *)
Record Badge : Type := {
  className : string;
  achievement_color : option string;
  title : string;
  icon_child : option string;
  name_span : option (option string);
  description_span : option (option string)
}.

(** [AchievementBadge]; [None] is the [null] it returns to render
    nothing.  Every value [lookup] finds is an object or a function,
    hence truthy. *)
Definition AchievementBadge (achievementId : string) (size : Size) (showTooltip : bool)
  : option Badge :=
  match lookup achievementId with
  | None => None
  | Some achievement =>
      Some {| className := "achievement-badge " ++ sizeClasses size;
              achievement_color := get_color achievement;
              title := if showTooltip
                       then interpolate (get_name achievement) ++ ": "
                            ++ interpolate (get_description achievement)
                       else "";
              icon_child := get_icon achievement;
              name_span := match size with
                           | small => None
                           | _ => Some (get_name achievement)
                           end;
              description_span := match size with
                                  | large => Some (get_description achievement)
                                  | _ => None
                                  end |}
  end.

(** The enumerated set of achievement identifiers. *)
Definition enumerated (key : string) : bool :=
  existsb (String.eqb key)
          ["first_step"; "halfway_hero"; "path_master"; "speed_demon"; "multi_path"].

End Achievements.

(* ================================================================== *)
(** ** JavaScript strings                                             *)
(* ================================================================== *)

Module JSString.

(** A JavaScript string is a sequence of UTF-16 code units (numbers
    below 2^16); [s.length] counts them and [===] compares them one by
    one.  The strings a form field holds are modelled this way.
    Messages and identifiers, which the code only compares and
    displays, stay Rocq strings. *)
Definition code_unit : Type := N.
Definition t : Type := list code_unit.

(** [s.length]. *)
Definition length (s : t) : nat := List.length s.

(** [a === b]. *)
Fixpoint eqb (a b : t) : bool :=
  match a, b with
  | [], [] => true
  | x :: a', y :: b' => N.eqb x y && eqb a' b'
  | _, _ => false
  end.

(** The string written by an ASCII literal: one code unit per
    character. *)
Definition of_ascii (s : string) : t :=
  map N_of_ascii (list_ascii_of_string s).

End JSString.

(* ================================================================== *)
(** ** Sign-up form (Signup.js, both layouts)                         *)
(* ================================================================== *)

Module Signup.
Local Open Scope string_scope.

Record State : Type := {
  name : JSString.t;
  email : JSString.t;
  password : JSString.t;
  confirmPassword : JSString.t;
  error : string;
  loading : bool
}.

(** The outcome of [signup(email, password, name)]; a failure carries
    [err.response?.data?.detail] when there is one. *)
Inductive SignupResult : Type :=
| SignupOk
| SignupFailed (detail : option string).

(** What a run of the handler did besides updating the state. *)
Record Effects : Type := {
  signup_calls : list (JSString.t * JSString.t * JSString.t);
  navigations : list string
}.

Definition no_effects : Effects := {| signup_calls := []; navigations := [] |}.

Definition setError (msg : string) (st : State) : State :=
  {| name := name st; email := email st; password := password st;
     confirmPassword := confirmPassword st; error := msg; loading := loading st |}.

Definition setLoading (b : bool) (st : State) : State :=
  {| name := name st; email := email st; password := password st;
     confirmPassword := confirmPassword st; error := error st; loading := b |}.

(** [a || b] on an optional string: the empty string is falsy. *)
Definition or_else (a : option string) (b : string) : string :=
  match a with
  | Some s => if String.eqb s "" then b else s
  | None => b
  end.

Definition handleSubmit
           (signup : JSString.t -> JSString.t -> JSString.t -> SignupResult)
           (st : State) : State * Effects :=
  let st := setError "" st in
  if negb (JSString.eqb (password st) (confirmPassword st)) then
    (setError "Passwords do not match" st, no_effects)
  else if (JSString.length (password st) <? 6)%nat then
    (setError "Password must be at least 6 characters" st, no_effects)
  else
    let st := setLoading true st in
    let call := (email st, password st, name st) in
    match signup (email st) (password st) (name st) with
    | SignupOk =>
        (setLoading false st,
         {| signup_calls := [call]; navigations := ["/quiz"] |})
    | SignupFailed detail =>
        (setLoading false
           (setError (or_else detail "Signup failed. Please try again.") st),
         {| signup_calls := [call]; navigations := [] |})
    end.

End Signup.

(* ================================================================== *)
(** ** Sample data                                                    *)
(* ================================================================== *)

Module Examples.
Import Dashboard.
Local Open Scope string_scope.

(** A one-character identifier for each [n < 256]. *)
Definition ident (n : nat) : string := String (ascii_of_nat n) EmptyString.

Definition milestones_upto (n : nat) : list Milestone :=
  map (fun i => {| milestone_id := ident i; estimated_days := 7 |}) (seq 0 n).

Definition path_of (i : string) (n : nat) : CareerPath :=
  {| id := i; name := i; milestones := milestones_upto n |}.

Definition record_of (i : string) (n : nat) : ProgressRecord :=
  {| user_id := "u1"; career_path_id := i;
     completed_milestones := map ident (seq 0 n) |}.

(** Three career paths with 4, 5 and 2 milestones, of which the user
    has completed 4, 2 and 2. *)
Definition catalog : list CareerPath :=
  [path_of "frontend" 4; path_of "backend" 5; path_of "data" 2].

Definition progress : list ProgressRecord :=
  [record_of "frontend" 4; record_of "backend" 2; record_of "data" 2].

(** The same catalog with a fourth path the user never started. *)
Definition wider_catalog : list CareerPath := catalog ++ [path_of "cloud" 3].

(** A path of 200 milestones with 199 of them completed. *)
Definition long_path : CareerPath := path_of "long" 200.
Definition almost_done : ProgressRecord := record_of "long" 199.

(** A progress list holding two records for one path, both complete. *)
Definition doubled_progress : list ProgressRecord :=
  [record_of "frontend" 4; record_of "frontend" 4].

(** A quiz of two questions. *)
Definition two_questions : list Quiz.QuizQuestion :=
  [ {| Quiz.question_id := "q1"; Quiz.question := "Goal?";
       Quiz.options := ["Build"; "Analyse"] |};
    {| Quiz.question_id := "q2"; Quiz.question := "Style?";
       Quiz.options := ["Video"; "Article"; "Course"] |} ].

Definition recommendation : Quiz.Recommendation :=
  {| Quiz.recommended_paths := ["frontend"]; Quiz.learning_style := "video" |}.

(** The two-question quiz with both questions answered, on its last
    question. *)
Definition answered : Quiz.State :=
  {| Quiz.questions := two_questions; Quiz.currentQuestion := 1;
     Quiz.answers :=
       [ Some {| Quiz.answer_question_id := "q1"; Quiz.selected_option := 0 |};
         Some {| Quiz.answer_question_id := "q2"; Quiz.selected_option := 2 |} ];
     Quiz.loading := false; Quiz.submitting := false; Quiz.results := None;
     Quiz.alerts := []; Quiz.inflight := [] |}.

(** A sign-up form whose confirmation differs from the password. *)
Definition mismatched_form : Signup.State :=
  {| Signup.name := JSString.of_ascii "Ada";
     Signup.email := JSString.of_ascii "ada@example.org";
     Signup.password := JSString.of_ascii "secret1";
     Signup.confirmPassword := JSString.of_ascii "secret2";
     Signup.error := ""; Signup.loading := false |}.

(** The password made of [n] times the letter e with an acute accent
    (U+00E9): [n] code units, twice as many bytes in UTF-8. *)
Definition accented (n : nat) : JSString.t := repeat 233%N n.

(** A sign-up form with that password, confirmed. *)
Definition accented_form (n : nat) : Signup.State :=
  {| Signup.name := JSString.of_ascii "Ada";
     Signup.email := JSString.of_ascii "ada@example.org";
     Signup.password := accented n; Signup.confirmPassword := accented n;
     Signup.error := ""; Signup.loading := false |}.

Definition accepting (_ _ _ : JSString.t) : Signup.SignupResult := Signup.SignupOk.

(** A record for the path "data" naming two milestones the path does
    not have. *)
Definition foreign_done : Dashboard.ProgressRecord :=
  {| Dashboard.user_id := "u1"; Dashboard.career_path_id := "data";
     Dashboard.completed_milestones := ["elsewhere-1"; "elsewhere-2"] |}.

End Examples.

(* ================================================================== *)
(** ** The rest of the dashboard render (Dashboard.js)                *)
(* ================================================================== *)

Module DashboardView.
Import JSNumber Dashboard.

(** [x > y] on numbers: false as soon as one of them is NaN. *)
Definition gt (x y : Number) : bool := SFltb y x.

(** The signed-in user, as far as the dashboard reads it;
    [recommended_paths] is [None] when the field is missing or null. *)
Record User : Type := {
  user_name : string;
  quiz_completed : bool;
  recommended_paths : option (list string)
}.

(** [user.recommended_paths || []]: an array, even an empty one, is
    truthy. *)
Definition recommendedPaths (user : User) : list string :=
  match recommended_paths user with
  | Some l => l
  | None => []
  end.

Definition hasRecommendations (user : User) : bool :=
  (0 <? List.length (recommendedPaths user))%nat.

(** [recommendedPaths.includes(x)]. *)
Definition includes (l : list string) (x : string) : bool :=
  existsb (fun y => String.eqb y x) l.

(** The cards of the "Recommended For You" section, each with the
    percentage it displays; nothing is rendered without
    recommendations. *)
Definition recommendedCards (userProgress : list ProgressRecord)
           (careerPaths : list CareerPath) (user : User)
  : list (CareerPath * Number) :=
  if hasRecommendations user
  then map (fun path => (path, getPathProgress userProgress careerPaths (id path)))
           (filter (fun path => includes (recommendedPaths user) (id path)) careerPaths)
  else [].

(** [isStarted] of a card of "All Career Paths": the progress bar is
    shown when it holds, the "Start Learning" button otherwise. *)
Definition isStarted (userProgress : list ProgressRecord)
           (careerPaths : list CareerPath) (pathId : string) : bool :=
  gt (getPathProgress userProgress careerPaths pathId) (of_Z 0).

(** The sum of a list of integers (the exact value of a [reduce] over
    integral numbers). *)
Definition sumZ (l : list Z) : Z := fold_right Z.add 0 l.

End DashboardView.

(* ================================================================== *)
(** ** The rest of the quiz render (Quiz screen)                      *)
(* ================================================================== *)

Module QuizView.
Import JSNumber Quiz.

(** [answers.filter(a => a).length], the "n/m answered" counter. *)
Definition answeredCount (st : State) : nat :=
  List.length
    (filter (fun a => match a with Some _ => true | None => false end) (answers st)).

(** The value of the progress bar. *)
Definition progress (st : State) : Number :=
  mul (div (of_nat (currentQuestion st + 1)) (of_nat (List.length (questions st))))
      (of_Z 100).

(** [isSelected] of the option button [index]:
    [answers[currentQuestion]?.selected_option === index]. *)
Definition isSelected (st : State) (index : nat) : bool :=
  match JSArray.get (answers st) (currentQuestion st) with
  | Some a => Nat.eqb (selected_option a) index
  | None => false
  end.

(** What a reachable state also satisfies: every filled slot holds the
    identifier of the question at its position and an option of that
    question; a request is in flight exactly while [submitting] is set
    and no results have arrived, and there is never more than one. *)
Definition answers_match (st : State) : Prop :=
  forall i a, JSArray.get (answers st) i = Some a ->
    exists q, nth_error (questions st) i = Some q /\
              answer_question_id a = question_id q /\
              (selected_option a < List.length (options q))%nat.

(** A request body that answers every question of the list [qs]. *)
Definition complete_for (qs : list QuizQuestion) (body : JSArray.sparse QuizAnswer) : Prop :=
  List.length body = List.length qs /\
  forall i q, nth_error qs i = Some q ->
    exists a, JSArray.get body i = Some a /\
              answer_question_id a = question_id q /\
              (selected_option a < List.length (options q))%nat.

Definition submission_consistent (st : State) : Prop :=
  match results st with
  | Some _ => inflight st = []
  | None =>
      (submitting st = true /\ exists body, inflight st = [body]) \/
      (submitting st = false /\ inflight st = [])
  end.

(** Everything the reachable states of the wizard satisfy. *)
Definition quiz_invariant (qs : list QuizQuestion) (st : State) : Prop :=
  invariant st /\ questions st = qs /\ loading st = false /\
  (qs <> [] -> (currentQuestion st < List.length qs)%nat) /\
  answers_match st /\ submission_consistent st /\
  (forall body, In body (inflight st) -> complete_for qs body).

End QuizView.

(* ================================================================== *)
(** ** Achievement popup (AchievementPopup component)                 *)
(* ================================================================== *)

Module Popup.
Import Achievements.

(** The texts of the popup; a child that is [undefined] renders as
    nothing. *)
Record Popup : Type := {
  popup_icon : option string;
  popup_name : option string;
  popup_description : option string
}.

(** [AchievementPopup]; [None] is the [null] it returns. *)
Definition AchievementPopup (achievement : string) : option Popup :=
  match lookup achievement with
  | None => None
  | Some achievementData =>
      Some {| popup_icon := get_icon achievementData;
              popup_name := get_name achievementData;
              popup_description := get_description achievementData |}
  end.

End Popup.

(* ================================================================== *)
(** ** Login form (Login.js, both layouts)                            *)
(* ================================================================== *)

Module Login.
Local Open Scope string_scope.

Record State : Type := {
  email : string;
  password : string;
  error : string;
  loading : bool
}.

(** The outcome of [login(email, password)]; a failure carries
    [err.response?.data?.detail] when there is one. *)
Inductive LoginResult : Type :=
| LoginOk
| LoginFailed (detail : option string).

Record Effects : Type := {
  login_calls : list (string * string);
  navigations : list string
}.

Definition setError (msg : string) (st : State) : State :=
  {| email := email st; password := password st; error := msg; loading := loading st |}.

Definition setLoading (b : bool) (st : State) : State :=
  {| email := email st; password := password st; error := error st; loading := b |}.

Definition handleSubmit (login : string -> string -> LoginResult) (st : State)
  : State * Effects :=
  let st := setLoading true (setError "" st) in
  let call := (email st, password st) in
  match login (email st) (password st) with
  | LoginOk =>
      (setLoading false st, {| login_calls := [call]; navigations := ["/"] |})
  | LoginFailed detail =>
      (setLoading false
         (setError (Signup.or_else detail "Login failed. Please check your credentials.") st),
       {| login_calls := [call]; navigations := [] |})
  end.

End Login.

(* ================================================================== *)
(** ** More sample data                                               *)
(* ================================================================== *)

Module MoreExamples.
Import Dashboard.
Local Open Scope string_scope.

Definition learner : DashboardView.User :=
  {| DashboardView.user_name := "Ada"; DashboardView.quiz_completed := true;
     DashboardView.recommended_paths := Some ["data"; "frontend"; "data"; "gone"] |}.

(** The two-question quiz right after its first question was
    answered. *)
Definition first_answered : Quiz.State :=
  {| Quiz.questions := Examples.two_questions; Quiz.currentQuestion := 0;
     Quiz.answers :=
       [ Some {| Quiz.answer_question_id := "q1"; Quiz.selected_option := 1 |} ];
     Quiz.loading := false; Quiz.submitting := false; Quiz.results := None;
     Quiz.alerts := []; Quiz.inflight := [] |}.

Definition valid_form : Signup.State :=
  {| Signup.name := JSString.of_ascii "Ada";
     Signup.email := JSString.of_ascii "ada@example.org";
     Signup.password := JSString.of_ascii "secret1";
     Signup.confirmPassword := JSString.of_ascii "secret1";
     Signup.error := "stale"; Signup.loading := false |}.

Definition refusing (_ _ _ : JSString.t) : Signup.SignupResult :=
  Signup.SignupFailed (Some "").

Definition login_form : Login.State :=
  {| Login.email := "ada@example.org"; Login.password := "";
     Login.error := "stale"; Login.loading := false |}.

Definition rejecting (_ _ : string) : Login.LoginResult := Login.LoginFailed None.

End MoreExamples.

(* ================================================================== *)
(** * Properties                                                      *)
(* ================================================================== *)

Import JSNumber.

(** Case analysis on the boolean comparisons of a goal. *)
Ltac bool_arith :=
  repeat match goal with
    | |- context [?a <=? ?b] => destruct (Z.leb_spec a b)
    | |- context [?a =? ?b] => destruct (Z.eqb_spec a b)
    | H : context [?a <=? ?b] |- _ => destruct (Z.leb_spec a b)
    | H : context [?a =? ?b] |- _ => destruct (Z.eqb_spec a b)
    end; cbn [negb andb orb]; try reflexivity; try discriminate; try lia.

(** ** Binary64 arithmetic on array lengths *)

(* ---------- digits ---------- *)
Lemma digits2_pos_bounds (p : positive) :
  2 ^ (Zpos (digits2_pos p) - 1) <= Zpos p < 2 ^ Zpos (digits2_pos p).
Proof.
  induction p as [p IH | p IH | ]; cbn [digits2_pos].
  - rewrite Pos2Z.inj_succ.
    replace (Z.succ (Zpos (digits2_pos p)) - 1) with (Z.succ (Zpos (digits2_pos p) - 1)) by lia.
    rewrite !Z.pow_succ_r by lia. lia.
  - rewrite Pos2Z.inj_succ.
    replace (Z.succ (Zpos (digits2_pos p)) - 1) with (Z.succ (Zpos (digits2_pos p) - 1)) by lia.
    rewrite !Z.pow_succ_r by lia. lia.
  - cbn. lia.
Qed.

Lemma digits2_pos_unique (p : positive) (d : Z) :
  2 ^ (d - 1) <= Zpos p < 2 ^ d -> Zpos (digits2_pos p) = d.
Proof.
  intros [Hlo Hhi].
  pose proof (digits2_pos_bounds p) as [Blo Bhi].
  assert (0 < d) as Hd.
  { destruct (Z.ltb_spec 0 d) as [|Hn]; [assumption|].
    exfalso. destruct (Z.eqb_spec d 0) as [->|Hne].
    - cbn in Hhi. lia.
    - rewrite (Z.pow_neg_r 2 d) in Hhi by lia. lia. }
  destruct (Z.lt_trichotomy (Zpos (digits2_pos p)) d) as [Hlt | [Heq | Hgt]].
  - exfalso.
    assert (2 ^ Zpos (digits2_pos p) <= 2 ^ (d - 1)) by (apply Z.pow_le_mono_r; lia).
    lia.
  - assumption.
  - exfalso.
    assert (2 ^ d <= 2 ^ (Zpos (digits2_pos p) - 1)) by (apply Z.pow_le_mono_r; lia).
    lia.
Qed.

(* ---------- shifting right with a location ---------- *)

Lemma shr_1_located r num den :
  located r num den -> located (shr_1 r) num (2 * den).
Proof.
  destruct r as [m r s]. unfold located; cbn [shr_m shr_r shr_s].
  intros (Hden & Hm & Hnu & Hr & Hs).
  destruct m as [ | p | p ]; [ | | lia ].
  - cbn [shr_1 shr_m shr_r shr_s]. subst r s.
    repeat split; try lia; bool_arith.
  - destruct p as [p | p | ]; cbn [shr_1 shr_m shr_r shr_s]; subst r s.
    + rewrite Pos2Z.inj_xI in *. repeat split; try lia; bool_arith.
    + rewrite Pos2Z.inj_xO in *. repeat split; try lia; bool_arith.
    + repeat split; try lia; bool_arith.
Qed.

Lemma iter_pos_shr_1_located (p : positive) : forall r num den,
  located r num den -> located (iter_pos shr_1 p r) num (2 ^ Zpos p * den).
Proof.
  induction p as [p IH | p IH | ]; intros r num den H; cbn [iter_pos].
  - apply shr_1_located in H. apply IH in H. apply IH in H.
    replace (2 ^ Zpos p~1 * den) with (2 ^ Zpos p * (2 ^ Zpos p * (2 * den))); [assumption|].
    replace (Zpos p~1) with (Zpos p + Zpos p + 1) by lia.
    rewrite !Z.pow_add_r by lia. ring.
  - apply IH in H. apply IH in H.
    replace (2 ^ Zpos p~0 * den) with (2 ^ Zpos p * (2 ^ Zpos p * den)); [assumption|].
    replace (Zpos p~0) with (Zpos p + Zpos p) by lia.
    rewrite !Z.pow_add_r by lia. ring.
  - apply shr_1_located in H. exact H.
Qed.

Lemma shr_located r e n num den :
  0 <= n -> located r num den ->
  exists r', shr r e n = (r', e + n) /\ located r' num (2 ^ n * den).
Proof.
  intros Hn H. destruct n as [ | p | p ]; [ | | lia ].
  - exists r. cbn [shr]. rewrite Z.add_0_r, Z.pow_0_r, Z.mul_1_l. split; [reflexivity|assumption].
  - exists (iter_pos shr_1 p r). cbn [shr]. split; [reflexivity|].
    apply iter_pos_shr_1_located; assumption.
Qed.

Lemma fexp_normal e : -1074 <= e - 53 -> fexp prec emax e = e - 53.
Proof. unfold fexp, emin, prec, emax. lia. Qed.

Lemma shr_fexp_located m e l num den d :
  Zdigits2 m = d -> 53 <= d -> -1074 <= d + e - 53 ->
  located (shr_record_of_loc m l) num den ->
  exists r', shr_fexp prec emax m e l = (r', e + (d - 53)) /\
             located r' num (2 ^ (d - 53) * den).
Proof.
  intros Hd Hd53 He H. unfold shr_fexp. rewrite Hd, fexp_normal by lia.
  replace (d + e - 53 - e) with (d - 53) by lia.
  apply shr_located; [lia | assumption].
Qed.

Lemma located_exact m : 0 <= m -> located (shr_record_of_loc m loc_Exact) m 1.
Proof.
  intros Hm. unfold located; cbn [shr_record_of_loc shr_m shr_r shr_s].
  repeat split; try lia; bool_arith.
Qed.

Lemma located_new_location q r d :
  0 <= q -> 0 <= r < d ->
  located (shr_record_of_loc q (new_location d r)) (q * d + r) d.
Proof.
  intros Hq Hr. unfold new_location, new_location_even, new_location_odd.
  destruct (Z.even d) eqn:Ev.
  - destruct (Z.eqb_spec r 0) as [-> | Hr0].
    + unfold located; cbn [shr_record_of_loc shr_m shr_r shr_s].
      repeat split; try lia; bool_arith.
    + destruct (Z.compare_spec (2 * r) d);
        unfold located; cbn [shr_record_of_loc shr_m shr_r shr_s];
        repeat split; try lia; bool_arith.
  - assert (d = 2 * (d / 2) + 1) as Hodd.
    { rewrite (Z.div_mod d 2) at 1 by lia. rewrite Zmod_odd, <- Z.negb_even, Ev. reflexivity. }
    destruct (Z.eqb_spec r 0) as [-> | Hr0].
    + unfold located; cbn [shr_record_of_loc shr_m shr_r shr_s].
      repeat split; try lia; bool_arith.
    + destruct (Z.compare_spec (2 * r + 1) d);
        unfold located; cbn [shr_record_of_loc shr_m shr_r shr_s];
        repeat split; try lia; bool_arith.
Qed.

Lemma round_nearest_even_located r num den :
  located r num den ->
  shr_m r <= round_nearest_even (shr_m r) (loc_of_shr_record r) <= shr_m r + 1 /\
  2 * Z.abs (round_nearest_even (shr_m r) (loc_of_shr_record r) * den - num) <= den.
Proof.
  destruct r as [m r s]. unfold located; cbn [shr_m shr_r shr_s].
  intros (Hden & Hm & Hnu & Hr & Hs).
  destruct r, s; cbn [loc_of_shr_record round_nearest_even];
    symmetry in Hr, Hs.
  - (* above one half *)
    destruct (Z.leb_spec den (2 * (num - m * den))); [|discriminate].
    destruct (Z.eqb_spec (2 * (num - m * den)) den) as [E|E];
      [rewrite andb_false_r in Hs; discriminate|]. lia.
  - (* exactly one half *)
    destruct (Z.leb_spec den (2 * (num - m * den))); [|discriminate].
    destruct (Z.even m); lia.
  - destruct (Z.leb_spec den (2 * (num - m * den))); [discriminate|]. lia.
  - destruct (Z.leb_spec den (2 * (num - m * den))); [discriminate|]. lia.
Qed.

(** Rounding a located value whose integer part has [d >= 53] digits:
    the result is a normal number with a 53-bit mantissa, within half a
    unit in the last place of [num / den]. *)
Lemma binary_round_aux_spec mx ex lx num den d :
  0 < mx -> Zdigits2 mx = d -> 53 <= d ->
  -1074 <= d + ex - 53 -> d + ex - 53 + 1 <= 971 ->
  located (shr_record_of_loc mx lx) num den ->
  exists N j,
    binary_round_aux prec emax false mx ex lx = S754_finite false N (ex + j) /\
    2 ^ 52 <= Zpos N < 2 ^ 53 /\
    d - 53 <= j <= d - 53 + 1 /\
    2 * Z.abs (Zpos N * (2 ^ j * den) - num) <= 2 ^ j * den.
Proof.
  intros Hmx Hd Hd53 Hlo Hhi Hloc.
  assert (Hbits : 2 ^ (d - 1) <= mx < 2 ^ d).
  { destruct mx as [ | p | p ]; try lia. cbn [Zdigits2] in Hd. subst d.
    apply digits2_pos_bounds. }
  assert (Hmxloc : 0 <= num - mx * den < den).
  { destruct Hloc as (_ & _ & H & _). destruct lx as [ | [ | | ] ]; exact H. }
  assert (Hden : 0 < den) by (destruct Hloc as (H & _); exact H).
  destruct (shr_fexp_located mx ex lx num den d Hd Hd53 Hlo Hloc) as (r1 & E1 & L1).
  unfold binary_round_aux. rewrite E1.
  pose proof (round_nearest_even_located _ _ _ L1) as [Hn Herr].
  set (N1 := round_nearest_even (shr_m r1) (loc_of_shr_record r1)) in *.
  set (sh := d - 53) in *.
  assert (Hsh : 0 < 2 ^ sh) by (apply Z.pow_pos_nonneg; lia).
  assert (Hm1 : 2 ^ 52 <= shr_m r1 < 2 ^ 53).
  { destruct L1 as (_ & _ & H & _).
    assert (2 ^ (d - 1) = 2 ^ 52 * 2 ^ sh) as Ea
        by (rewrite <- Z.pow_add_r by lia; f_equal; lia).
    assert (2 ^ d = 2 ^ 53 * 2 ^ sh) as Eb
        by (rewrite <- Z.pow_add_r by lia; f_equal; lia).
    rewrite Ea, Eb in Hbits.
    split.
    - assert ((2 ^ 52 * 2 ^ sh) * den < (shr_m r1 + 1) * 2 ^ sh * den) by nia.
      assert (2 ^ 52 * 2 ^ sh < (shr_m r1 + 1) * 2 ^ sh) by nia.
      nia.
    - assert (shr_m r1 * 2 ^ sh * den < (2 ^ 53 * 2 ^ sh) * den) by nia.
      assert (shr_m r1 * 2 ^ sh < 2 ^ 53 * 2 ^ sh) by nia.
      nia. }
  assert (HN1 : 2 ^ 52 <= N1 <= 2 ^ 53) by lia.
  destruct (Z.eq_dec N1 (2 ^ 53)) as [Etop | Hlt].
  - (* the mantissa overflowed to 2^53: one more shift *)
    rewrite Etop.
    assert (E2 : shr_fexp prec emax (2 ^ 53) (ex + sh) loc_Exact =
                 ({| shr_m := 2 ^ 52; shr_r := false; shr_s := false |}, ex + sh + 1)).
    { unfold shr_fexp. change (Zdigits2 (2 ^ 53)) with 54.
      rewrite fexp_normal by lia.
      replace (54 + (ex + sh) - 53 - (ex + sh)) with 1 by lia. reflexivity. }
    rewrite E2. cbn [shr_m].
    change (2 ^ 52) with (Zpos (4503599627370496)) at 1.
    cbv iota beta.
    destruct (Z.leb_spec (ex + sh + 1) (emax - prec)) as [_ | Hbad];
      [ | unfold emax, prec in Hbad; lia ].
    exists 4503599627370496%positive, (sh + 1).
    split; [f_equal; lia|]. split; [lia|]. split; [lia|].
    rewrite Z.pow_add_r by lia.
    rewrite Etop in Herr.
    replace (Z.pos 4503599627370496 * (2 ^ sh * 2 ^ 1 * den) - num)
      with (2 ^ 53 * (2 ^ sh * den) - num) by (change (Z.pos 4503599627370496) with (2 ^ 52); change (2 ^ 53) with (2 ^ 52 * 2); change (2 ^ 1) with 2; ring).
    change (2 ^ 1) with 2. nia.
  - destruct N1 as [ | N | N ] eqn:EN; try lia.
    assert (E2 : shr_fexp prec emax (Zpos N) (ex + sh) loc_Exact =
                 ({| shr_m := Zpos N; shr_r := false; shr_s := false |}, ex + sh)).
    { unfold shr_fexp. cbn [Zdigits2].
      rewrite (digits2_pos_unique N 53) by (change (53 - 1) with 52; lia).
      rewrite fexp_normal by lia.
      replace (53 + (ex + sh) - 53 - (ex + sh)) with 0 by lia. reflexivity. }
    rewrite E2. cbn [shr_m]. cbv iota beta.
    destruct (Z.leb_spec (ex + sh) (emax - prec)) as [_ | Hbad];
      [ | unfold emax, prec in Hbad; lia ].
    exists N, sh. split; [reflexivity|]. split; [lia|]. split; [lia|]. exact Herr.
Qed.

(* ---------- integers are represented exactly ---------- *)

Lemma binary_round_aux_exact (m : positive) (e : Z) :
  Zpos (digits2_pos m) = 53 -> -1074 <= e <= 971 ->
  binary_round_aux prec emax false (Zpos m) e loc_Exact = S754_finite false m e.
Proof.
  intros Hd He.
  assert (E : shr_fexp prec emax (Zpos m) e loc_Exact =
              ({| shr_m := Zpos m; shr_r := false; shr_s := false |}, e)).
  { unfold shr_fexp. cbn [Zdigits2]. rewrite Hd, fexp_normal by lia.
    replace (53 + e - 53 - e) with 0 by lia. reflexivity. }
  unfold binary_round_aux. rewrite E.
  cbn [shr_m loc_of_shr_record round_nearest_even]. rewrite E. cbn [shr_m].
  destruct (Z.leb_spec e (emax - prec)) as [_ | Hbad];
    [reflexivity | unfold emax, prec in Hbad; lia].
Qed.

Lemma iter_xO_pow (p n : positive) :
  Zpos (Pos.iter xO p n) = Zpos p * 2 ^ Zpos n.
Proof.
  induction n as [ | n IH ] using Pos.peano_ind.
  - cbn [Pos.iter]. rewrite Pos2Z.inj_xO. change (2 ^ 1) with 2. lia.
  - rewrite Pos.iter_succ, Pos2Z.inj_xO, IH, Pos2Z.inj_succ, Z.pow_succ_r by lia. ring.
Qed.

(** A positive integer below 2^53 is a number, with its mantissa
    normalised to 53 bits. *)
Lemma of_Z_normal (z : positive) :
  Zpos z < 2 ^ 53 ->
  let d := Zpos (digits2_pos z) in
  exists mz, of_Z (Zpos z) = S754_finite false mz (d - 53) /\
             Zpos mz = Zpos z * 2 ^ (53 - d) /\
             2 ^ 52 <= Zpos mz < 2 ^ 53.
Proof.
  intros Hz d. pose proof (digits2_pos_bounds z) as Hb. fold d in Hb.
  assert (Hd : 0 < d <= 53).
  { split; [unfold d; lia|].
    destruct (Z.le_gt_cases d 53) as [|Hgt]; [assumption|exfalso].
    assert (2 ^ 53 <= 2 ^ (d - 1)) by (apply Z.pow_le_mono_r; lia). lia. }
  assert (Hscale : forall mz, Zpos mz = Zpos z * 2 ^ (53 - d) -> 2 ^ 52 <= Zpos mz < 2 ^ 53).
  { intros mz ->.
    assert (2 ^ 52 = 2 ^ (d - 1) * 2 ^ (53 - d)) as ->
        by (rewrite <- Z.pow_add_r by lia; f_equal; lia).
    assert (2 ^ 53 = 2 ^ d * 2 ^ (53 - d)) as ->
        by (rewrite <- Z.pow_add_r by lia; f_equal; lia).
    assert (0 < 2 ^ (53 - d)) by (apply Z.pow_pos_nonneg; lia). nia. }
  unfold of_Z, binary_normalize, binary_round.
  fold d. rewrite Z.add_0_r, fexp_normal by lia.
  unfold shl_align.
  destruct (d - 53 - 0) as [ | sh | sh ] eqn:Esh; [ | lia | ].
  - assert (d = 53) as Ed by lia.
    exists z. rewrite Ed in *. change (53 - 53) with 0.
    rewrite binary_round_aux_exact by (unfold d in Ed; lia).
    rewrite Z.pow_0_r, Z.mul_1_r. split; [reflexivity|]. split; [reflexivity|].
    apply Hscale. rewrite Z.pow_0_r; lia.
  - exists (Pos.iter xO z sh).
    assert (Emz : Zpos (Pos.iter xO z sh) = Zpos z * 2 ^ (53 - d)).
    { rewrite iter_xO_pow. f_equal. f_equal. lia. }
    pose proof (Hscale _ Emz) as Hmz.
    rewrite binary_round_aux_exact.
    + split; [reflexivity|]. split; assumption.
    + apply digits2_pos_unique. change (53 - 1) with 52. exact Hmz.
    + lia.
Qed.

Lemma of_Z_0 : of_Z 0 = S754_zero false.
Proof. reflexivity. Qed.

(* ---------- division and multiplication of normal numbers ---------- *)

Lemma div_normal (mx my : positive) (ex ey : Z) :
  2 ^ 52 <= Zpos mx < 2 ^ 53 -> 2 ^ 52 <= Zpos my < 2 ^ 53 ->
  -1000 <= ex - ey <= 900 ->
  exists N j,
    div (S754_finite false mx ex) (S754_finite false my ey)
      = S754_finite false N (ex - ey - 53 + j) /\
    2 ^ 52 <= Zpos N < 2 ^ 53 /\ 0 <= j <= 2 /\
    2 * Z.abs (Zpos N * (2 ^ j * Zpos my) - Zpos mx * 2 ^ 53) <= 2 ^ j * Zpos my.
Proof.
  intros Hx Hy He.
  assert (Dx : Zpos (digits2_pos mx) = 53)
    by (apply digits2_pos_unique; change (53 - 1) with 52; exact Hx).
  assert (Dy : Zpos (digits2_pos my) = 53)
    by (apply digits2_pos_unique; change (53 - 1) with 52; exact Hy).
  unfold div, SFdiv, SFdiv_core_binary. cbn [xorb Zdigits2]. rewrite Dx, Dy.
  rewrite fexp_normal by lia.
  replace (Z.min (53 + ex - (53 + ey) - 53) (ex - ey)) with (ex - ey - 53) by lia.
  replace (ex - ey - (ex - ey - 53)) with 53 by lia.
  cbv iota. rewrite Z.shiftl_mul_pow2 by lia.
  pose proof (Z_div_mod (Zpos mx * 2 ^ 53) (Zpos my) ltac:(lia)) as Hdm.
  destruct (Z.div_eucl (Zpos mx * 2 ^ 53) (Zpos my)) as [q r].
  destruct Hdm as [Eq Hr].
  assert (Hq : 2 ^ 52 <= q < 2 ^ 54) by nia.
  destruct q as [ | q | q ]; try lia.
  pose proof (digits2_pos_bounds q) as Hb.
  set (d := Zpos (digits2_pos q)) in *.
  assert (Hd : 53 <= d <= 54).
  { split.
    - destruct (Z.le_gt_cases 53 d) as [|Hlt]; [assumption|exfalso].
      assert (2 ^ d <= 2 ^ 52) by (apply Z.pow_le_mono_r; lia). lia.
    - destruct (Z.le_gt_cases d 54) as [|Hgt]; [assumption|exfalso].
      assert (2 ^ 54 <= 2 ^ (d - 1)) by (apply Z.pow_le_mono_r; lia). lia. }
  destruct (binary_round_aux_spec (Zpos q) (ex - ey - 53) (new_location (Zpos my) r)
              (Zpos q * Zpos my + r) (Zpos my) d)
    as (N & j & E & HN & Hj & Herr); try lia.
  - reflexivity.
  - apply located_new_location; lia.
  - exists N, j. rewrite E. split; [reflexivity|]. split; [assumption|]. split; [lia|].
    replace (Zpos mx * 2 ^ 53) with (Zpos q * Zpos my + r) by lia. exact Herr.
Qed.

Lemma mul_normal (mx my : positive) (ex ey : Z) :
  2 ^ 52 <= Zpos mx < 2 ^ 53 -> 2 ^ 52 <= Zpos my < 2 ^ 53 ->
  -1000 <= ex + ey <= 800 ->
  exists N j,
    mul (S754_finite false mx ex) (S754_finite false my ey)
      = S754_finite false N (ex + ey + j) /\
    2 ^ 52 <= Zpos N < 2 ^ 53 /\ 52 <= j <= 54 /\
    2 * Z.abs (Zpos N * 2 ^ j - Zpos mx * Zpos my) <= 2 ^ j.
Proof.
  intros Hx Hy He.
  unfold mul, SFmul. cbn [xorb].
  pose proof (digits2_pos_bounds (mx * my)) as Hb.
  set (d := Zpos (digits2_pos (mx * my))) in *.
  rewrite Pos2Z.inj_mul in Hb.
  assert (Hp : 2 ^ 104 <= Zpos mx * Zpos my < 2 ^ 106).
  { change (2 ^ 104) with (2 ^ 52 * 2 ^ 52). change (2 ^ 106) with (2 ^ 53 * 2 ^ 53). nia. }
  assert (Hd : 105 <= d <= 106).
  { split.
    - destruct (Z.le_gt_cases 105 d) as [|Hlt]; [assumption|exfalso].
      assert (2 ^ d <= 2 ^ 104) by (apply Z.pow_le_mono_r; lia). lia.
    - destruct (Z.le_gt_cases d 106) as [|Hgt]; [assumption|exfalso].
      assert (2 ^ 106 <= 2 ^ (d - 1)) by (apply Z.pow_le_mono_r; lia). lia. }
  destruct (binary_round_aux_spec (Zpos (mx * my)) (ex + ey) loc_Exact
              (Zpos (mx * my)) 1 d)
    as (N & j & E & HN & Hj & Herr); try lia.
  - reflexivity.
  - apply located_exact; lia.
  - exists N, j. rewrite E. split; [reflexivity|]. split; [assumption|]. split; [lia|].
    rewrite Z.mul_1_r, Pos2Z.inj_mul in Herr. exact Herr.
Qed.

(* ---------- Math.round ---------- *)

Lemma Math_round_normal (N : positive) (e : Z) :
  e < 0 ->
  Math_round (S754_finite false N e)
    = of_Z ((2 * Zpos N + 2 ^ (- e)) / 2 ^ (- e + 1)).
Proof.
  intros He. unfold Math_round.
  destruct (Z.leb_spec 0 e) as [Hbad | _]; [lia|].
  cbn [cond_Zopp].
  destruct (Z.eqb_spec ((2 * Zpos N + 2 ^ (- e)) / 2 ^ (- e + 1)) 0) as [-> | _];
    reflexivity.
Qed.

Lemma to_Z_of_Z (k : Z) : 0 <= k < 2 ^ 53 -> to_Z (of_Z k) = Some k.
Proof.
  intros Hk. destruct k as [ | p | p ]; [reflexivity | | lia].
  destruct (of_Z_normal p) as (mz & E & Emz & Hmz); [lia|].
  rewrite E. unfold to_Z. cbn [cond_Zopp].
  pose proof (digits2_pos_bounds p) as Hb.
  set (d := Zpos (digits2_pos p)) in *.
  destruct (Z.leb_spec 0 (d - 53)) as [Hge | Hlt].
  - assert (d = 53).
    { destruct (Z.le_gt_cases d 53) as [|Hgt]; [lia|exfalso].
      assert (2 ^ 53 <= 2 ^ (d - 1)) by (apply Z.pow_le_mono_r; lia). lia. }
    rewrite Emz. replace (53 - d) with 0 by lia. replace (d - 53) with 0 by lia.
    rewrite Z.pow_0_r. f_equal. lia.
  - replace (- (d - 53)) with (53 - d) by lia.
    assert (0 < 2 ^ (53 - d)) by (apply Z.pow_pos_nonneg; lia).
    rewrite Emz, Z.mod_mul, Z.eqb_refl, Z.div_mul by lia. reflexivity.
Qed.

Lemma of_Z_inj (j k : Z) :
  0 <= j < 2 ^ 53 -> 0 <= k < 2 ^ 53 -> of_Z j = of_Z k -> j = k.
Proof.
  intros Hj Hk E. apply (f_equal to_Z) in E.
  rewrite !to_Z_of_Z in E by assumption. congruence.
Qed.
Lemma scaled_lt_one (x W B : Z) : 0 < W -> x * W <= B -> B < W -> x < 1.
Proof. intros HW H1 H2. nia. Qed.

Lemma scaled_gt_minus_one (x W B : Z) : 0 < W -> - B < x * W -> B < W -> -1 < x.
Proof. intros HW H1 H2. nia. Qed.

(** The arithmetic at the heart of the percentage: two roundings to 53
    bits followed by a rounding to the nearest integer still give a
    nearest integer of [100 * c / m]. *)
Lemma nearest_after_two_roundings
      (c m N1 N2 U V T P2 k : Z) :
  0 < c < 2 ^ 32 -> 0 < m -> 0 < U -> 0 < V -> 0 < T -> 0 < P2 -> P2 <= 2 ^ 54 ->
  2 ^ 52 <= N1 ->
  2 * Z.abs (N1 * U - c * V) <= U ->
  2 * Z.abs (N2 * P2 - N1 * (100 * 2 ^ 46)) <= P2 ->
  T * P2 * U = m * (V * 2 ^ 46) ->
  2 * T * k <= 2 * N2 + T < 2 * T * k + 2 * T ->
  Z.abs (2 * m * k - 200 * c) <= m.
Proof.
  intros Hc Hm HU HV HT HP2 HP2' HN1 Ha Hb Hd Hk.
  set (H := 100 * 2 ^ 46) in *. set (W := V * 2 ^ 46) in *.
  assert (HH : 0 < H) by (unfold H; lia).
  assert (HW : 0 < W) by (unfold W; lia).
  assert (HPU : 0 <= P2 * U) by (apply Z.mul_nonneg_nonneg; lia).
  (* the rounding errors, scaled by [W], stay below one unit *)
  assert (Hsmall : U * (H + P2) < W).
  { assert (A1 : (2 * N1 - 1) * U <= 2 * c * V) by lia.
    assert (A2 : (2 ^ 53 - 1) * U <= (2 * N1 - 1) * U)
      by (apply Z.mul_le_mono_nonneg_r; lia).
    assert (A3 : 2 * c * V <= 2 ^ 33 * V)
      by (apply Z.mul_le_mono_nonneg_r; lia).
    assert (A4 : 356 * U < V) by lia.
    assert (A5 : U * (H + P2) <= U * (356 * 2 ^ 46))
      by (apply Z.mul_le_mono_nonneg_l; unfold H; lia).
    unfold W. lia. }
  assert (E1 : T * k * P2 * U = k * m * W) by (transitivity (k * (T * P2 * U)); [ring | rewrite Hd; ring]).
  assert (E2 : c * V * H = 100 * c * W) by (unfold H, W; ring).
  assert (E3 : T * P2 * U = m * W) by exact Hd.
  assert (Up : (2 * k * m - 200 * c - m) * W <= U * (H + P2)).
  { assert (B1 : 2 * T * k * (P2 * U) <= (2 * N2 + T) * (P2 * U))
      by (apply Z.mul_le_mono_nonneg_r; lia).
    assert (B2 : 2 * N2 * P2 * U <= (2 * N1 * H + P2) * U)
      by (apply Z.mul_le_mono_nonneg_r; lia).
    assert (B3 : 2 * N1 * U * H <= (2 * c * V + U) * H)
      by (apply Z.mul_le_mono_nonneg_r; lia).
    lia. }
  assert (Lo : - (U * (H + P2)) < (2 * k * m + m - 200 * c) * W).
  { assert (B1 : (2 * N2 + 1) * (P2 * U) <= (2 * T * k + T) * (P2 * U))
      by (apply Z.mul_le_mono_nonneg_r; lia).
    assert (B2 : (2 * N1 * H - P2) * U <= 2 * N2 * P2 * U)
      by (apply Z.mul_le_mono_nonneg_r; lia).
    assert (B3 : (2 * c * V - U) * H <= 2 * N1 * U * H)
      by (apply Z.mul_le_mono_nonneg_r; lia).
    assert (B4 : 0 < P2 * U) by (apply Z.mul_pos_pos; lia).
    lia. }
  pose proof (scaled_lt_one _ _ _ HW Up Hsmall).
  pose proof (scaled_gt_minus_one _ _ _ HW Lo Hsmall).
  lia.
Qed.

(* ---------- the percentage ---------- *)

Lemma of_Z_100 : of_Z 100 = S754_finite false 7036874417766400 (-46).
Proof. reflexivity. Qed.

Lemma digits2_pos_le_32 (p : positive) :
  Zpos p < 2 ^ 32 -> 1 <= Zpos (digits2_pos p) <= 32.
Proof.
  intros Hp. pose proof (digits2_pos_bounds p) as Hb. split; [lia|].
  destruct (Z.le_gt_cases (Zpos (digits2_pos p)) 32) as [|Hgt]; [assumption|exfalso].
  assert (2 ^ 32 <= 2 ^ (Zpos (digits2_pos p) - 1)) by (apply Z.pow_le_mono_r; lia).
  lia.
Qed.

(** For array lengths [c] and [m >= 1], the percentage is an integer
    [k] nearest to [100 * c / m]. *)
Lemma percentage_nearest (c m : nat) :
  (0 < m)%nat -> Z.of_nat c < 2 ^ 32 -> Z.of_nat m < 2 ^ 32 ->
  exists k, Dashboard.percentage c m = of_Z k /\ 0 <= k < 2 ^ 53 /\
            Z.abs (2 * Z.of_nat m * k - 200 * Z.of_nat c) <= Z.of_nat m.
Proof.
  intros Hm0 Hc Hm. unfold Dashboard.percentage, of_nat.
  destruct (Z.of_nat m) as [ | pm | pm ] eqn:Em; try lia.
  destruct (of_Z_normal pm) as (mm & EY & Emm & Hmm); [lia|].
  pose proof (digits2_pos_le_32 pm Hm) as Hdm.
  set (dm := Zpos (digits2_pos pm)) in *.
  destruct (Z.of_nat c) as [ | pc | pc ] eqn:Ec; try lia.
  - (* nothing completed *)
    exists 0. rewrite EY. split; [reflexivity|]. split; lia.
  - destruct (of_Z_normal pc) as (mc & EX & Emc & Hmc); [lia|].
    pose proof (digits2_pos_le_32 pc Hc) as Hdc.
    set (dc := Zpos (digits2_pos pc)) in *.
    rewrite EX, EY.
    destruct (div_normal mc mm (dc - 53) (dm - 53) Hmc Hmm) as (N1 & j1 & E1 & HN1 & Hj1 & Herr1);
      [lia|].
    rewrite E1, of_Z_100.
    destruct (mul_normal N1 7036874417766400 (dc - 53 - (dm - 53) - 53 + j1) (-46) HN1)
      as (N2 & j2 & E2 & HN2 & Hj2 & Herr2); [lia | lia |].
    rewrite E2, Math_round_normal by lia.
    set (t := - (dc - 53 - (dm - 53) - 53 + j1 + -46 + j2)).
    assert (Ht : 12 <= t) by (unfold t; lia).
    replace (t + 1) with (Z.succ t) by lia. rewrite Z.pow_succ_r by lia.
    set (T := 2 ^ t).
    assert (HT : 0 < T) by (apply Z.pow_pos_nonneg; lia).
    set (k := (2 * Zpos N2 + T) / (2 * T)).
    assert (Hk : 2 * T * k <= 2 * Zpos N2 + T < 2 * T * k + 2 * T).
    { pose proof (Z.mul_div_le (2 * Zpos N2 + T) (2 * T) ltac:(lia)).
      pose proof (Z.mul_succ_div_gt (2 * Zpos N2 + T) (2 * T) ltac:(lia)).
      fold k in H, H0. lia. }
    assert (Hk0 : 0 <= k) by (apply Z.div_pos; lia).
    assert (Hk53 : k < 2 ^ 53).
    { apply Z.div_lt_upper_bound; [lia|].
      assert (2 ^ 12 <= T) by (apply Z.pow_le_mono_r; lia). nia. }
    exists k. split; [reflexivity|]. split; [lia|].
    assert (HP1 : 0 < 2 ^ j1) by (apply Z.pow_pos_nonneg; lia).
    assert (HP2 : 0 < 2 ^ j2) by (apply Z.pow_pos_nonneg; lia).
    assert (HV : 0 < 2 ^ (53 - dc) * 2 ^ 53)
      by (apply Z.mul_pos_pos; apply Z.pow_pos_nonneg; lia).
    assert (HU : 0 < 2 ^ j1 * Zpos mm) by (apply Z.mul_pos_pos; lia).
    assert (HP2' : 2 ^ j2 <= 2 ^ 54) by (apply Z.pow_le_mono_r; lia).
    assert (Ha : 2 * Z.abs (Zpos N1 * (2 ^ j1 * Zpos mm)
                            - Zpos pc * (2 ^ (53 - dc) * 2 ^ 53)) <= 2 ^ j1 * Zpos mm).
    { replace (Zpos pc * (2 ^ (53 - dc) * 2 ^ 53)) with (Zpos mc * 2 ^ 53)
        by (rewrite Emc; ring).
      exact Herr1. }
    assert (Hb : 2 * Z.abs (Zpos N2 * 2 ^ j2 - Zpos N1 * (100 * 2 ^ 46)) <= 2 ^ j2)
      by exact Herr2.
    assert (Hd : T * 2 ^ j2 * (2 ^ j1 * Zpos mm)
                 = Zpos pm * (2 ^ (53 - dc) * 2 ^ 53 * 2 ^ 46)).
    { rewrite Emm. unfold T, t.
      transitivity (Zpos pm * (2 ^ (- (dc - 53 - (dm - 53) - 53 + j1 + -46 + j2))
                               * 2 ^ j2 * 2 ^ j1 * 2 ^ (53 - dm))); [ring|].
      rewrite <- !Z.pow_add_r by lia. f_equal. f_equal. lia. }
    apply (nearest_after_two_roundings (Zpos pc) (Zpos pm) (Zpos N1) (Zpos N2)
             (2 ^ j1 * Zpos mm) (2 ^ (53 - dc) * 2 ^ 53) T (2 ^ j2) k);
      first [assumption | lia].
Qed.

(* ================================================================== *)
(** ** Progress aggregation                                           *)
(* ================================================================== *)

Section DashboardFacts.
Import Dashboard.

Lemma distinctb_NoDup (l : list string) : distinctb l = true -> NoDup l.
Proof.
  induction l as [ | x rest IH ]; cbn [distinctb]; intros H.
  - constructor.
  - apply andb_true_iff in H as [Hx Hrest]. constructor; [ | auto ].
    intros Hin. apply negb_true_iff in Hx.
    assert (existsb (String.eqb x) rest = true) as E.
    { apply existsb_exists. exists x. split; [assumption | apply String.eqb_refl]. }
    congruence.
Qed.

(** Under the data-model constraint a record never holds more
    completed milestones than its path has milestones. *)
Lemma subset_of_milestones_length (p : ProgressRecord) (path : CareerPath) :
  subset_of_milestones p path = true ->
  (List.length (completed_milestones p) <= List.length (milestones path))%nat.
Proof.
  unfold subset_of_milestones. intros H.
  apply andb_true_iff in H as [Hd Hin].
  rewrite <- (length_map milestone_id (milestones path)).
  apply NoDup_incl_length; [apply distinctb_NoDup; assumption | ].
  intros i Hi. rewrite forallb_forall in Hin. specialize (Hin i Hi).
  apply existsb_exists in Hin as (y & Hy & E).
  apply String.eqb_eq in E. subst y. assumption.
Qed.

Lemma getPathProgress_found userProgress careerPaths pathId progress path :
  JSArray.find (fun p => String.eqb (career_path_id p) pathId) userProgress = Some progress ->
  JSArray.find (fun p => String.eqb (id p) pathId) careerPaths = Some path ->
  getPathProgress userProgress careerPaths pathId
    = percentage (List.length (completed_milestones progress))
                 (List.length (milestones path)).
Proof. intros Hp Hc. unfold getPathProgress. rewrite Hp, Hc. reflexivity. Qed.

(** Where the exact ratio is halfway between two integers the binary64
    product decides the side: 29 of 200 is 14.499999999999998 before
    [Math.round], 1 of 200 is 0.5. *)
Lemma percentage_ties :
  percentage 29 200 = of_Z 14 /\ percentage 1 200 = of_Z 1.
Proof. split; vm_compute; reflexivity. Qed.

(** A path without milestones: the division is by zero and the
    percentage is not a finite number. *)
Lemma percentage_without_milestones :
  percentage 0 0 = NaN /\ percentage 3 0 = Infinity.
Proof. split; reflexivity. Qed.

(** The fold of [getCompletedCount], from any starting sum. *)
Lemma completed_fold_le careerPaths (l : list ProgressRecord) (acc : nat) :
  (fold_left
     (fun sum p =>
        match JSArray.find (fun cp => String.eqb (id cp) (career_path_id p)) careerPaths with
        | Some path =>
            if Nat.eqb (List.length (completed_milestones p)) (List.length (milestones path))
            then (sum + 1)%nat else sum
        | None => sum
        end) l acc <= acc + List.length l)%nat.
Proof.
  revert acc. induction l as [ | p rest IH ]; intros acc; cbn [fold_left List.length].
  - lia.
  - match goal with |- (fold_left _ _ ?a <= _)%nat => specialize (IH a) end.
    destruct (JSArray.find _ careerPaths) as [path | ];
      [destruct (Nat.eqb _ _) | ]; lia.
Qed.

Lemma getCompletedCount_le_length userProgress careerPaths :
  (getCompletedCount userProgress careerPaths <= List.length userProgress)%nat.
Proof. unfold getCompletedCount. apply (completed_fold_le careerPaths userProgress 0). Qed.

Lemma distinctPaths_NoDup userProgress :
  NoDup (map career_path_id userProgress) ->
  distinctPaths userProgress = List.length userProgress.
Proof.
  intros H. unfold distinctPaths. rewrite nodup_fixed_point by assumption.
  apply length_map.
Qed.

End DashboardFacts.

Section DashboardClaims.
Import Dashboard.
Local Open Scope string_scope.

(** C1, as stated, fails: with 199 of the 200 milestones of a path
    completed (a progress record satisfying the data-model constraint),
    [getPathProgress] is 100 although the two counts differ, so
    "equals 100 if and only if the counts are equal" does not hold. *)
Lemma C1_full_percentage_without_completion :
  subset_of_milestones Examples.almost_done Examples.long_path = true /\
  ~ (getPathProgress [Examples.almost_done] [Examples.long_path] "long" = of_Z 100
     <-> List.length (completed_milestones Examples.almost_done)
         = List.length (milestones Examples.long_path)).
Proof.
  split; [vm_compute; reflexivity | ].
  intros [Hto _].
  assert (E : getPathProgress [Examples.almost_done] [Examples.long_path] "long" = of_Z 100)
    by (vm_compute; reflexivity).
  specialize (Hto E). clear E. vm_compute in Hto. lia.
Qed.

(** C1, amended: for a path of the catalog with at least one milestone
    and a matching progress record, the percentage is 100 when the
    completed count equals the milestone count, and when it is 100 the
    completed count is at least 99.5% of the milestone count; when the
    completed milestones are a subset of the path's, it is an integer
    in [0,100]. *)
Theorem C1_percentage_range userProgress careerPaths pathId progress path :
  JSArray.find (fun p => String.eqb (career_path_id p) pathId) userProgress = Some progress ->
  JSArray.find (fun p => String.eqb (id p) pathId) careerPaths = Some path ->
  (0 < List.length (milestones path))%nat ->
  array_length_ok (milestones path) ->
  array_length_ok (completed_milestones progress) ->
  (subset_of_milestones progress path = true ->
   exists k, getPathProgress userProgress careerPaths pathId = of_Z k /\ 0 <= k <= 100) /\
  (List.length (completed_milestones progress) = List.length (milestones path) ->
   getPathProgress userProgress careerPaths pathId = of_Z 100) /\
  (getPathProgress userProgress careerPaths pathId = of_Z 100 ->
   199 * Z.of_nat (List.length (milestones path))
   <= 200 * Z.of_nat (List.length (completed_milestones progress))).
Proof.
  intros Hp Hc Hpos Hlen Hlenc.
  rewrite (getPathProgress_found _ _ _ _ _ Hp Hc).
  unfold array_length_ok in Hlen, Hlenc.
  destruct (percentage_nearest _ _ Hpos Hlenc Hlen) as (k & E & Hk & Hnear).
  rewrite E. split; [ | split ].
  - intros Hsub. pose proof (subset_of_milestones_length _ _ Hsub) as Hle.
    exists k. split; [reflexivity | ].
    set (c := List.length (completed_milestones progress)) in *.
    set (m := List.length (milestones path)) in *.
    clear - Hnear Hle Hpos Hk. nia.
  - intros Ecm. f_equal. rewrite Ecm in Hnear.
    set (m := List.length (milestones path)) in *.
    clear - Hnear Hpos Hk. nia.
  - intros E100. apply of_Z_inj in E100; [ | lia | lia ]. subst k. lia.
Qed.

Lemma C1_percentage_range_witness :
  (exists k, getPathProgress Examples.progress Examples.catalog "data" = of_Z k
             /\ 0 <= k <= 100) /\
  getPathProgress Examples.progress Examples.catalog "data" = of_Z 100 /\
  199 * Z.of_nat (List.length (milestones (Examples.path_of "data" 2)))
  <= 200 * Z.of_nat (List.length (completed_milestones (Examples.record_of "data" 2))) /\
  subset_of_milestones Examples.foreign_done (Examples.path_of "data" 2) = false /\
  getPathProgress [Examples.foreign_done] Examples.catalog "data" = of_Z 100.
Proof.
  destruct (C1_percentage_range Examples.progress Examples.catalog "data"
              (Examples.record_of "data" 2) (Examples.path_of "data" 2))
    as (Hrange & Hfull & Hnear).
  - reflexivity.
  - reflexivity.
  - cbn. lia.
  - unfold array_length_ok. cbn. lia.
  - unfold array_length_ok. cbn. lia.
  - destruct (C1_percentage_range [Examples.foreign_done] Examples.catalog "data"
                Examples.foreign_done (Examples.path_of "data" 2))
      as (_ & Hforeign & _).
    + reflexivity.
    + reflexivity.
    + cbn. lia.
    + unfold array_length_ok. cbn. lia.
    + unfold array_length_ok. cbn. lia.
    + split; [apply Hrange; reflexivity | ].
      split; [apply Hfull; reflexivity | ].
      split; [apply Hnear; apply Hfull; reflexivity | ].
      split; [reflexivity | apply Hforeign; reflexivity].
Defined.

(** C2, as stated, fails: a progress list with two complete records
    for one path has completed count 2 and a single distinct path. *)
Lemma C2_completed_count_above_distinct_paths :
  ~ (getCompletedCount Examples.doubled_progress Examples.catalog
     <= distinctPaths Examples.doubled_progress)%nat.
Proof. vm_compute. lia. Qed.

(** C2, amended: when no two records of the progress list share a
    career-path identifier, the completed count of the dashboard, and
    the one of the profile screen, never exceed the number of distinct
    career paths in the progress list. *)
Theorem C2_completed_count_le_distinct_paths userProgress careerPaths achievements st :
  NoDup (map career_path_id userProgress) ->
  (getCompletedCount userProgress careerPaths <= distinctPaths userProgress)%nat /\
  (Profile.completedPaths
     (Profile.stats
        (Profile.fetchStats
           (Some {| Profile.progressRes := userProgress;
                    Profile.achievementsRes := achievements;
                    Profile.pathsRes := careerPaths |}) st))
   <= distinctPaths userProgress)%nat.
Proof.
  intros Hnd. rewrite (distinctPaths_NoDup _ Hnd). split.
  - apply getCompletedCount_le_length.
  - cbn [Profile.fetchStats Profile.stats Profile.completedPaths
           Profile.progressRes Profile.pathsRes].
    apply filter_length_le.
Qed.

Lemma C2_completed_count_le_distinct_paths_witness :
  (getCompletedCount Examples.progress Examples.catalog
   <= distinctPaths Examples.progress)%nat /\
  (Profile.completedPaths
     (Profile.stats
        (Profile.fetchStats
           (Some {| Profile.progressRes := Examples.progress;
                    Profile.achievementsRes := None;
                    Profile.pathsRes := Examples.catalog |}) Profile.initial))
   <= distinctPaths Examples.progress)%nat.
Proof.
  apply (C2_completed_count_le_distinct_paths
           Examples.progress Examples.catalog None Profile.initial).
  repeat constructor; cbn; intuition discriminate.
Defined.

(** C4: with a matching progress record and the path in the catalog,
    [getPathProgress] is [Math.round((c / m) * 100)] for the completed
    count [c] and the milestone count [m], and for [m >= 1] this number
    is an integer nearest to the exact ratio [100 * c / m] (the two
    binary64 roundings before [Math.round] never move it to another
    integer); without a matching progress record it is 0. *)
Theorem C4_percentage_formula userProgress careerPaths pathId :
  (forall progress path,
      JSArray.find (fun p => String.eqb (career_path_id p) pathId) userProgress
        = Some progress ->
      JSArray.find (fun p => String.eqb (id p) pathId) careerPaths = Some path ->
      getPathProgress userProgress careerPaths pathId
        = Math_round (mul (div (of_nat (List.length (completed_milestones progress)))
                               (of_nat (List.length (milestones path))))
                          (of_Z 100)) /\
      ((0 < List.length (milestones path))%nat ->
       array_length_ok (completed_milestones progress) ->
       array_length_ok (milestones path) ->
       exists k, getPathProgress userProgress careerPaths pathId = of_Z k /\
                 Z.abs (2 * Z.of_nat (List.length (milestones path)) * k
                        - 200 * Z.of_nat (List.length (completed_milestones progress)))
                 <= Z.of_nat (List.length (milestones path)))) /\
  (JSArray.find (fun p => String.eqb (career_path_id p) pathId) userProgress = None ->
   getPathProgress userProgress careerPaths pathId = of_Z 0).
Proof.
  split.
  - intros progress path Hp Hc.
    rewrite (getPathProgress_found _ _ _ _ _ Hp Hc). split; [reflexivity | ].
    intros Hpos Hc32 Hm32.
    destruct (percentage_nearest _ _ Hpos Hc32 Hm32) as (k & E & _ & Hnear).
    exists k. split; assumption.
  - intros Hnone. unfold getPathProgress. rewrite Hnone. reflexivity.
Qed.

Lemma C4_percentage_formula_witness :
  (exists k, getPathProgress Examples.progress Examples.catalog "backend" = of_Z k /\
             Z.abs (2 * 5 * k - 200 * 2) <= 5) /\
  getPathProgress Examples.progress Examples.catalog "cloud" = of_Z 0.
Proof.
  split.
  - destruct (C4_percentage_formula Examples.progress Examples.catalog "backend")
      as [Hfound _].
    destruct (Hfound (Examples.record_of "backend" 2) (Examples.path_of "backend" 5)
                     eq_refl eq_refl) as [_ Hnear].
    apply Hnear.
    + cbn. lia.
    + unfold array_length_ok. cbn. lia.
    + unfold array_length_ok. cbn. lia.
  - destruct (C4_percentage_formula Examples.progress Examples.catalog "cloud")
      as [_ Hnone].
    apply Hnone. reflexivity.
Defined.

(** C5: for three career paths with 4, 5 and 2 milestones and one
    progress record per path completing 4, 2 and 2 of them, the
    percentages are 100, 40 and 100, the completed count is 2 and the
    average progress is 80; the average is taken over the paths of the
    progress list only: a fourth path of the catalog that was never
    started has percentage 0 and leaves the average at 80. *)
Theorem C5_dashboard_example :
  getPathProgress Examples.progress Examples.catalog "frontend" = of_Z 100 /\
  getPathProgress Examples.progress Examples.catalog "backend" = of_Z 40 /\
  getPathProgress Examples.progress Examples.catalog "data" = of_Z 100 /\
  getCompletedCount Examples.progress Examples.catalog = 2%nat /\
  averageProgress Examples.progress Examples.catalog = of_Z 80 /\
  getPathProgress Examples.progress Examples.wider_catalog "cloud" = of_Z 0 /\
  averageProgress Examples.progress Examples.wider_catalog = of_Z 80.
Proof. repeat split; vm_compute; reflexivity. Qed.

(** C10: [getPathProgress] returns a number on every input; for a
    path with a progress record but no catalog entry it returns 0,
    and whenever it evaluates the percentage the catalog lookup has
    succeeded, the divisor being the milestone count of the path
    found. *)
Theorem C10_no_division_without_path userProgress careerPaths pathId :
  (forall progress,
      JSArray.find (fun p => String.eqb (career_path_id p) pathId) userProgress
        = Some progress ->
      JSArray.find (fun p => String.eqb (id p) pathId) careerPaths = None ->
      getPathProgress userProgress careerPaths pathId = of_Z 0) /\
  (getPathProgress userProgress careerPaths pathId = of_Z 0 \/
   exists progress path,
     JSArray.find (fun p => String.eqb (career_path_id p) pathId) userProgress
       = Some progress /\
     JSArray.find (fun p => String.eqb (id p) pathId) careerPaths = Some path /\
     getPathProgress userProgress careerPaths pathId
       = Math_round (mul (div (of_nat (List.length (completed_milestones progress)))
                              (of_nat (List.length (milestones path))))
                         (of_Z 100))).
Proof.
  split.
  - intros progress Hp Hc. unfold getPathProgress. rewrite Hp, Hc. reflexivity.
  - unfold getPathProgress.
    destruct (JSArray.find _ userProgress) as [progress | ]; [ | left; reflexivity ].
    destruct (JSArray.find _ careerPaths) as [path | ]; [ | left; reflexivity ].
    right. exists progress, path. repeat split.
Qed.

Lemma C10_no_division_without_path_witness :
  getPathProgress Examples.progress [Examples.path_of "frontend" 4] "data" = of_Z 0.
Proof.
  destruct (C10_no_division_without_path
              Examples.progress [Examples.path_of "frontend" 4] "data") as [Hmissing _].
  apply (Hmissing (Examples.record_of "data" 2)); reflexivity.
Defined.

(** The fold of the dashboard and the filter of the profile screen
    count the same records. *)
Lemma completed_fold_filter careerPaths (l : list ProgressRecord) (acc : nat) :
  fold_left
    (fun sum p =>
       match JSArray.find (fun cp => String.eqb (id cp) (career_path_id p)) careerPaths with
       | Some path =>
           if Nat.eqb (List.length (completed_milestones p)) (List.length (milestones path))
           then (sum + 1)%nat else sum
       | None => sum
       end) l acc
  = (acc + List.length
             (filter
                (fun p =>
                   match JSArray.find (fun cp => String.eqb (id cp) (career_path_id p))
                                      careerPaths with
                   | Some path =>
                       Nat.eqb (List.length (completed_milestones p))
                               (List.length (milestones path))
                   | None => false
                   end) l))%nat.
Proof.
  revert acc. induction l as [ | p rest IH ]; intros acc; cbn [fold_left filter].
  - cbn. lia.
  - rewrite IH.
    destruct (JSArray.find _ careerPaths) as [path | ];
      [destruct (Nat.eqb _ _) | ]; cbn [List.length]; lia.
Qed.

(** C8: on the profile screen the certificates count of the computed
    statistics is the completed-paths count, which is the number of
    progress records whose completed-milestone count equals the
    milestone count of the matching path (the count the dashboard
    computes); it is not fetched. *)
Theorem C8_certificates_count_is_completed_paths (res : Profile.Responses) st :
  Profile.certificatesCount (Profile.stats (Profile.fetchStats (Some res) st))
  = Profile.completedPaths (Profile.stats (Profile.fetchStats (Some res) st)) /\
  Profile.completedPaths (Profile.stats (Profile.fetchStats (Some res) st))
  = getCompletedCount (Profile.progressRes res) (Profile.pathsRes res).
Proof.
  split; [reflexivity | ].
  unfold getCompletedCount. rewrite completed_fold_filter. reflexivity.
Qed.

End DashboardClaims.

(* ================================================================== *)
(** ** Quiz wizard                                                    *)
(* ================================================================== *)

Section ArrayFacts.
Context {A : Type}.

Lemma set_length (a : JSArray.sparse A) (i : nat) (v : A) :
  List.length (JSArray.set a i v) = Nat.max (List.length a) (i + 1).
Proof.
  revert a. induction i as [ | j IH ]; intros [ | x rest ]; cbn [JSArray.set List.length].
  - reflexivity.
  - lia.
  - rewrite IH. cbn [List.length]. lia.
  - rewrite IH. lia.
Qed.

Lemma set_dense (a : JSArray.sparse A) (i : nat) (v : A) :
  (i <= List.length a)%nat ->
  Forall (fun slot => slot <> None) a ->
  Forall (fun slot => slot <> None) (JSArray.set a i v).
Proof.
  revert a. induction i as [ | j IH ]; intros [ | x rest ] Hi Hd;
    cbn [JSArray.set List.length] in *.
  - repeat constructor. discriminate.
  - inversion Hd; subst. constructor; [discriminate | assumption].
  - lia.
  - inversion Hd; subst. constructor; [assumption | apply IH; [lia | assumption]].
Qed.

Lemma get_some_lt (a : JSArray.sparse A) (i : nat) (v : A) :
  JSArray.get a i = Some v -> (i < List.length a)%nat.
Proof.
  unfold JSArray.get. intros H. apply nth_error_Some.
  destruct (nth_error a i); [discriminate | discriminate].
Qed.

Lemma get_none_dense (a : JSArray.sparse A) (i : nat) :
  Forall (fun slot => slot <> None) a ->
  JSArray.get a i = None -> (List.length a <= i)%nat.
Proof.
  intros Hd Hg. unfold JSArray.get in Hg.
  destruct (nth_error a i) as [slot | ] eqn:E.
  - apply nth_error_In in E. rewrite Forall_forall in Hd. specialize (Hd _ E).
    destruct slot; [discriminate | congruence].
  - apply nth_error_None. assumption.
Qed.

Lemma get_past_end (a : JSArray.sparse A) (i : nat) :
  (List.length a <= i)%nat -> JSArray.get a i = None.
Proof.
  intros H. unfold JSArray.get. apply nth_error_None in H. rewrite H. reflexivity.
Qed.

End ArrayFacts.

Section QuizClaims.
Import Quiz.
Local Open Scope string_scope.

Lemma displayed_lt st q :
  displayed st = Some q -> (currentQuestion st < List.length (questions st))%nat.
Proof.
  unfold displayed. destruct (view st); try discriminate.
  intros H. apply nth_error_Some. congruence.
Qed.

Lemma step_invariant st st' : step st st' -> invariant st -> invariant st'.
Proof.
  intros Hstep (Hlen & Hdense & Hcur).
  destruct Hstep as [ st q i st' Hq Hi Ha | st q Hq Hr Hd | st q Hq Hd
                    | st q Hq Hr Hd | st r Hin ].
  - (* an option is chosen *)
    pose proof (displayed_lt _ _ Hq) as Hlt.
    unfold handleAnswer in Ha.
    destruct (nth_error (questions st) (currentQuestion st)); [ | discriminate ].
    injection Ha as <-. unfold invariant; cbn [setAnswers answers questions currentQuestion].
    rewrite set_length. repeat split; [lia | apply set_dense; assumption | lia].
  - (* Next *)
    unfold next_disabled in Hd.
    destruct (JSArray.get (answers st) (currentQuestion st)) as [a | ] eqn:Eg;
      [ | discriminate ].
    apply get_some_lt in Eg.
    unfold handleNext. destruct (Z.ltb_spec (Z.of_nat (currentQuestion st))
                                            (Z.of_nat (List.length (questions st)) - 1)).
    + unfold invariant; cbn [setCurrentQuestion answers questions currentQuestion].
      repeat split; [assumption | assumption | lia].
    + repeat split; assumption.
  - (* Previous *)
    unfold handlePrevious. destruct (0 <? currentQuestion st)%nat.
    + unfold invariant; cbn [setCurrentQuestion answers questions currentQuestion].
      repeat split; [assumption | assumption | lia].
    + repeat split; assumption.
  - (* Submit *)
    unfold handleSubmit_send.
    destruct (negb _); unfold invariant; cbn; repeat split; assumption.
  - (* the request is settled *)
    unfold handleSubmit_settle. destruct r; unfold invariant; cbn;
      repeat split; assumption.
Qed.

Lemma reachable_invariant qs st : reachable qs st -> invariant st.
Proof.
  induction 1 as [ | st st' _ IH Hstep ].
  - unfold invariant; cbn. repeat split; [lia | constructor | lia].
  - exact (step_invariant _ _ Hstep IH).
Qed.

Lemma answered_reachable : reachable Examples.two_questions Examples.answered.
Proof.
  pose (q1 := {| question_id := "q1"; question := "Goal?";
                 options := ["Build"; "Analyse"] |}).
  pose (q2 := {| question_id := "q2"; question := "Style?";
                 options := ["Video"; "Article"; "Course"] |}).
  pose (s0 := initial Examples.two_questions).
  pose (s1 := setAnswers [Some {| answer_question_id := "q1"; selected_option := 0 |}] s0).
  pose (s2 := handleNext s1).
  assert (R1 : reachable Examples.two_questions s1).
  { apply (reachable_step _ s0); [constructor | ].
    apply (step_answer s0 q1 0%nat); [reflexivity | cbn; lia | reflexivity]. }
  assert (R2 : reachable Examples.two_questions s2).
  { apply (reachable_step _ s1); [exact R1 | ].
    apply (step_next s1 q1); reflexivity. }
  apply (reachable_step _ s2); [exact R2 | ].
  apply (step_answer s2 q2 2%nat); [reflexivity | cbn; lia | reflexivity].
Qed.

(** C3: in every state of the wizard reachable from the initial state
    through the buttons of the question view (each firing its handler
    only while rendered and enabled) and the settling of submissions,
    Next is disabled exactly when the slot of the current question is
    empty and, when no submission is pending, Submit is disabled
    exactly when some slot of the question list is empty. *)
Theorem C3_navigation_buttons qs st :
  reachable qs st ->
  (next_disabled st = true <-> slot_empty st (currentQuestion st)) /\
  (submitting st = false ->
   (submit_disabled st = true <->
    exists i, (i < List.length (questions st))%nat /\ slot_empty st i)).
Proof.
  intros Hreach. destruct (reachable_invariant _ _ Hreach) as (Hlen & Hdense & _).
  split.
  - unfold next_disabled, slot_empty.
    destruct (JSArray.get (answers st) (currentQuestion st));
      split; intros H; [discriminate | discriminate | reflexivity | reflexivity].
  - intros Hsub. unfold submit_disabled, slot_empty. rewrite Hsub, orb_false_r.
    destruct (Nat.eqb_spec (List.length (answers st)) (List.length (questions st)))
      as [Eq | Hneq]; cbn [negb]; split; intros H.
    + discriminate.
    + destruct H as (i & Hi & Hempty).
      apply (get_none_dense _ _ Hdense) in Hempty. lia.
    + exists (List.length (answers st)). split; [lia | ].
      apply get_past_end. lia.
    + reflexivity.
Qed.

Lemma C3_navigation_buttons_witness :
  (next_disabled Examples.answered = true
   <-> slot_empty Examples.answered (currentQuestion Examples.answered)) /\
  (submitting Examples.answered = false ->
   (submit_disabled Examples.answered = true <->
    exists i, (i < List.length (questions Examples.answered))%nat
              /\ slot_empty Examples.answered i)).
Proof.
  exact (C3_navigation_buttons Examples.two_questions Examples.answered
           answered_reachable).
Defined.

(** Why the guard on Next matters: were [handleNext] run on the
    initial state, with the first question unanswered, answering the
    second question would leave a hole in the first slot although the
    length check of Submit is passed. *)
Lemma unguarded_next_leaves_hole :
  exists st,
    handleAnswer 0 (handleNext (initial Examples.two_questions)) = Some st /\
    submit_disabled st = false /\ slot_empty st 0.
Proof. eexists. split; [reflexivity | split; reflexivity]. Qed.

(** C6: a submission from the Answering state with every slot
    filled.  When the request is rejected the wizard is in the
    Answering state again, with the same answers and question index,
    no results, [submitting] reset and the failure message shown;
    when it is resolved the payload becomes the results and the
    Results view is rendered.  The continuation that handles the
    rejection leaves answers, index and results as it finds them. *)
Theorem C6_submission_outcome st :
  view st = QuestionView ->
  submitting st = false ->
  List.length (answers st) = List.length (questions st) ->
  (view (handleSubmit Rejected st) = QuestionView /\
   submitting (handleSubmit Rejected st) = false /\
   results (handleSubmit Rejected st) = None /\
   answers (handleSubmit Rejected st) = answers st /\
   currentQuestion (handleSubmit Rejected st) = currentQuestion st /\
   alerts (handleSubmit Rejected st)
     = "Failed to submit quiz. Please try again." :: alerts st) /\
  (forall data,
      results (handleSubmit (Resolved data) st) = Some data /\
      view (handleSubmit (Resolved data) st) = ResultsView data /\
      inflight (handleSubmit_send st) = answers st :: inflight st) /\
  (forall st0,
      answers (handleSubmit_settle Rejected st0) = answers st0 /\
      currentQuestion (handleSubmit_settle Rejected st0) = currentQuestion st0 /\
      results (handleSubmit_settle Rejected st0) = results st0 /\
      submitting (handleSubmit_settle Rejected st0) = false /\
      alerts (handleSubmit_settle Rejected st0)
        = "Failed to submit quiz. Please try again." :: alerts st0).
Proof.
  intros Hview Hsub Hlen.
  assert (Hload : loading st = false /\ results st = None).
  { unfold view in Hview. destruct (loading st); [discriminate | ].
    destruct (results st); [discriminate | ]. split; reflexivity. }
  destruct Hload as [Hload Hres].
  unfold handleSubmit, handleSubmit_send. rewrite Hlen, Nat.eqb_refl. cbn [negb].
  split; [ | split ].
  - unfold view. cbn. rewrite Hload, Hres. repeat split.
  - intros data. unfold view. cbn. rewrite Hload. repeat split.
  - intros st0. cbn. repeat split.
Qed.

Lemma C6_submission_outcome_witness :
  view (handleSubmit Rejected Examples.answered) = QuestionView /\
  answers (handleSubmit Rejected Examples.answered) = answers Examples.answered /\
  alerts (handleSubmit Rejected Examples.answered)
    = ["Failed to submit quiz. Please try again."] /\
  view (handleSubmit (Resolved Examples.recommendation) Examples.answered)
    = ResultsView Examples.recommendation.
Proof.
  destruct (C6_submission_outcome Examples.answered) as (Hrej & Hres & _).
  - reflexivity.
  - reflexivity.
  - reflexivity.
  - destruct Hrej as (Hv & _ & _ & Ha & _ & Hal).
    destruct (Hres Examples.recommendation) as (_ & Hrv & _).
    split; [exact Hv | split; [exact Ha | split; [exact Hal | exact Hrv]]].
Defined.

End QuizClaims.

(* ================================================================== *)
(** ** Achievement badges                                             *)
(* ================================================================== *)

Section AchievementClaims.
Import Achievements.
Local Open Scope string_scope.

(** The table part of C7: the entry of [path_master]. *)
Lemma path_master_badge :
  lookup "path_master"
    = Some (Entry {| name := "Path Master";
                     description := "Complete an entire career path";
                     icon := "👑"; color := "#F59E0B" |}) /\
  List.length ACHIEVEMENT_DATA = 5%nat.
Proof. split; reflexivity. Qed.

Lemma assoc_none_iff {A : Type} (key : string) (l : list (string * A)) :
  assoc key l = None <-> ~ In key (map fst l).
Proof.
  induction l as [ | [k v] rest IH ]; cbn [assoc map fst In].
  - tauto.
  - destruct (String.eqb_spec k key) as [-> | Hne].
    + split; [discriminate | tauto].
    + rewrite IH. tauto.
Qed.

(** An identifier that is neither in the table nor a property name of
    [Object.prototype] renders nothing. *)
Lemma unknown_badge_renders_nothing achievementId size showTooltip :
  enumerated achievementId = false ->
  ~ In achievementId (map fst Object_prototype) ->
  AchievementBadge achievementId size showTooltip = None.
Proof.
  intros Henum Hproto. unfold AchievementBadge, lookup.
  assert (E1 : assoc achievementId ACHIEVEMENT_DATA = None).
  { apply assoc_none_iff. intros Hin.
    assert (enumerated achievementId = true) as Habs; [ | congruence ].
    unfold enumerated. apply existsb_exists. exists achievementId.
    split; [exact Hin | apply String.eqb_refl]. }
  apply assoc_none_iff in Hproto. rewrite E1, Hproto. reflexivity.
Qed.

(** C7 at the identifier [constructor], which is outside the
    enumerated set: [ACHIEVEMENT_DATA["constructor"]] is the function
    every object inherits, so the component renders a badge whose
    name is "Object", with no glyph and no colour, instead of
    returning null. *)
Theorem C7_inherited_key_renders_badge :
  enumerated "constructor" = false /\
  AchievementBadge "constructor" medium true
    = Some {| className := "achievement-badge achievement-medium";
              achievement_color := None;
              title := "Object: undefined";
              icon_child := None;
              name_span := Some (Some "Object");
              description_span := None |}.
Proof. split; reflexivity. Qed.

End AchievementClaims.

(* ================================================================== *)
(** ** Sign-up form                                                   *)
(* ================================================================== *)

Section SignupClaims.
Import Signup.
Local Open Scope string_scope.

Lemma JSString_eqb_spec (a b : JSString.t) : reflect (a = b) (JSString.eqb a b).
Proof.
  revert b. induction a as [ | x a' IH ]; intros [ | y b' ]; cbn [JSString.eqb];
    try (constructor; congruence).
  destruct (N.eqb_spec x y) as [-> | Hne]; cbn [andb].
  - destruct (IH b') as [-> | Hne]; constructor; congruence.
  - constructor. congruence.
Qed.

(** C9: when the password differs from its confirmation, or has
    fewer than 6 characters (UTF-16 code units, as [password.length]
    counts them), [handleSubmit] never calls [signup] and never
    navigates, sets the inline error (the mismatch message when the two
    differ, the length message when they agree) and leaves the loading
    flag as it was: false, since the form can be submitted only while
    it is false. *)
Theorem C9_invalid_password_rejected signup st :
  password st <> confirmPassword st \/ (JSString.length (password st) < 6)%nat ->
  signup_calls (snd (handleSubmit signup st)) = [] /\
  navigations (snd (handleSubmit signup st)) = [] /\
  loading (fst (handleSubmit signup st)) = loading st /\
  (loading st = false -> loading (fst (handleSubmit signup st)) = false) /\
  (password st <> confirmPassword st ->
   error (fst (handleSubmit signup st)) = "Passwords do not match") /\
  (password st = confirmPassword st ->
   error (fst (handleSubmit signup st)) = "Password must be at least 6 characters").
Proof.
  intros Hbad. unfold handleSubmit.
  cbn [setError password confirmPassword].
  destruct (JSString_eqb_spec (password st) (confirmPassword st)) as [Eq | Hneq];
    cbn [negb].
  - destruct Hbad as [Hneq | Hshort]; [contradiction | ].
    destruct (Nat.ltb_spec (JSString.length (password st)) 6) as [_ | Hge]; [ | lia].
    cbn. repeat split; try reflexivity; try tauto.
  - cbn. repeat split; try reflexivity; try tauto.
Qed.

Lemma C9_invalid_password_rejected_witness :
  signup_calls (snd (handleSubmit Examples.accepting Examples.mismatched_form)) = [] /\
  loading (fst (handleSubmit Examples.accepting Examples.mismatched_form)) = false /\
  error (fst (handleSubmit Examples.accepting Examples.mismatched_form))
    = "Passwords do not match" /\
  signup_calls (snd (handleSubmit Examples.accepting (Examples.accented_form 5))) = [] /\
  error (fst (handleSubmit Examples.accepting (Examples.accented_form 5)))
    = "Password must be at least 6 characters".
Proof.
  destruct (C9_invalid_password_rejected Examples.accepting Examples.mismatched_form)
    as (Hcalls & _ & _ & Hload & Hmis & _).
  - left. cbn. discriminate.
  - destruct (C9_invalid_password_rejected Examples.accepting (Examples.accented_form 5))
      as (Hcalls5 & _ & _ & _ & _ & Hshort).
    + right. cbn. lia.
    + split; [exact Hcalls | split; [ | split; [ | split ] ] ].
      * apply Hload. reflexivity.
      * apply Hmis. cbn. discriminate.
      * exact Hcalls5.
      * apply Hshort. reflexivity.
Defined.

End SignupClaims.

(* ================================================================== *)
(** ** More binary64 arithmetic: comparison, exact sums, exact quotients *)

Lemma gt_of_Z_0 (k : Z) :
  0 <= k < 2 ^ 53 -> DashboardView.gt (of_Z k) (of_Z 0) = (0 <? k).
Proof.
  intros Hk. destruct k as [ | p | p ]; [reflexivity | | lia].
  destruct (of_Z_normal p) as (mz & E & _); [lia | ].
  rewrite E. reflexivity.
Qed.

(** A mantissa that is a 53-bit number shifted left is rounded to
    that number: nothing is lost. *)
Lemma binary_round_aux_exact_shift (M m : positive) (e sh : Z) :
  0 <= sh -> Zpos M = Zpos m * 2 ^ sh -> 2 ^ 52 <= Zpos m < 2 ^ 53 ->
  -1074 <= e + sh <= 971 ->
  binary_round_aux prec emax false (Zpos M) e loc_Exact = S754_finite false m (e + sh).
Proof.
  intros Hsh HM Hm He.
  assert (Hpow : 0 < 2 ^ sh) by (apply Z.pow_pos_nonneg; lia).
  assert (Hd : Zdigits2 (Zpos M) = 53 + sh).
  { cbn [Zdigits2]. apply digits2_pos_unique. rewrite HM.
    replace (53 + sh - 1) with (52 + sh) by lia.
    rewrite !Z.pow_add_r by lia. nia. }
  destruct (shr_fexp_located (Zpos M) e loc_Exact (Zpos M) 1 (53 + sh) Hd)
    as (r1 & E1 & L1); [lia | lia | apply located_exact; lia | ].
  replace (53 + sh - 53) with sh in * by lia.
  assert (Hr1 : r1 = {| shr_m := Zpos m; shr_r := false; shr_s := false |}).
  { destruct r1 as [m1 r s]. unfold located in L1. cbn [shr_m shr_r shr_s] in L1.
    destruct L1 as (_ & _ & Hnu & Hr & Hs).
    rewrite Z.mul_1_r in *.
    assert (m1 = Zpos m) by nia. subst m1.
    replace (Zpos M - Zpos m * 2 ^ sh) with 0 in * by lia.
    rewrite Hr, Hs.
    destruct (Z.leb_spec (2 ^ sh) (2 * 0)); [lia | reflexivity]. }
  unfold binary_round_aux. rewrite E1, Hr1.
  cbn [shr_m loc_of_shr_record round_nearest_even].
  assert (E2 : shr_fexp prec emax (Zpos m) (e + sh) loc_Exact =
               ({| shr_m := Zpos m; shr_r := false; shr_s := false |}, e + sh)).
  { unfold shr_fexp. cbn [Zdigits2].
    rewrite (digits2_pos_unique m 53) by (change (53 - 1) with 52; lia).
    rewrite fexp_normal by lia.
    replace (53 + (e + sh) - 53 - (e + sh)) with 0 by lia. reflexivity. }
  rewrite E2. cbn [shr_m].
  destruct (Z.leb_spec (e + sh) (emax - prec)) as [_ | Hbad];
    [reflexivity | unfold emax, prec in Hbad; lia].
Qed.

Lemma digits2_pos_shift (K M : positive) (t : Z) :
  0 <= t -> Zpos M = Zpos K * 2 ^ t ->
  Zpos (digits2_pos M) = Zpos (digits2_pos K) + t.
Proof.
  intros Ht HM. apply digits2_pos_unique. rewrite HM.
  pose proof (digits2_pos_bounds K) as [Hlo Hhi].
  assert (0 < 2 ^ t) by (apply Z.pow_pos_nonneg; lia).
  replace (Zpos (digits2_pos K) + t - 1) with (Zpos (digits2_pos K) - 1 + t) by lia.
  rewrite !Z.pow_add_r by lia. nia.
Qed.

(** Normalising [K * 2^t] at exponent [-t] gives the number [K]. *)
Lemma binary_round_exact (M K : positive) (t : Z) :
  0 <= t <= 1000 -> Zpos M = Zpos K * 2 ^ t -> Zpos K < 2 ^ 53 ->
  binary_round prec emax false M (- t) = of_Z (Zpos K).
Proof.
  intros Ht HM HK.
  destruct (of_Z_normal K HK) as (mk & EK & Emk & Hmk). rewrite EK.
  pose proof (digits2_pos_shift K M t ltac:(lia) HM) as Hd.
  pose proof (digits2_pos_bounds K) as HbK.
  set (dK := Zpos (digits2_pos K)) in *.
  assert (HdK : 1 <= dK <= 53).
  { split; [unfold dK; lia | ].
    destruct (Z.le_gt_cases dK 53) as [ | Hgt]; [assumption | exfalso].
    assert (2 ^ 53 <= 2 ^ (dK - 1)) by (apply Z.pow_le_mono_r; lia). lia. }
  unfold binary_round. rewrite Hd.
  replace (dK + t + - t) with dK by lia.
  rewrite fexp_normal by lia. unfold shl_align.
  destruct (dK - 53 - - t) as [ | sh | sh ] eqn:Esh.
  - (* already 53 digits *)
    replace (- t) with (- t + 0) at 2 by lia.
    rewrite (binary_round_aux_exact_shift M mk (- t) 0); [f_equal; lia | lia | | lia | lia].
    rewrite Z.pow_0_r, Z.mul_1_r, HM, Emk. f_equal. f_equal. lia.
  - (* more than 53 digits: the low bits are zero *)
    rewrite (binary_round_aux_exact_shift M mk (- t) (Zpos sh)); [f_equal; lia | lia | | lia | lia].
    rewrite HM, Emk, <- Z.mul_assoc, <- Z.pow_add_r by lia. f_equal. f_equal. lia.
  - (* fewer than 53 digits: shifted left first *)
    rewrite binary_round_aux_exact.
    + f_equal. apply Pos2Z.inj. rewrite iter_xO_pow, HM, Emk, <- Z.mul_assoc, <- Z.pow_add_r by lia.
      f_equal. f_equal. lia.
    + apply digits2_pos_unique. change (53 - 1) with 52.
      rewrite iter_xO_pow, HM, <- Z.mul_assoc, <- Z.pow_add_r by lia.
      replace (t + Zpos sh) with (53 - dK) by lia. rewrite <- Emk. exact Hmk.
    + lia.
Qed.

Lemma shl_align_fst (mx : positive) (ex ez : Z) :
  ez <= ex -> Zpos (fst (shl_align mx ex ez)) = Zpos mx * 2 ^ (ex - ez).
Proof.
  intros H. unfold shl_align. destruct (ez - ex) as [ | d | d ] eqn:E; cbn [fst].
  - replace (ex - ez) with 0 by lia. rewrite Z.pow_0_r. lia.
  - lia.
  - rewrite iter_xO_pow. f_equal. f_equal. lia.
Qed.

(** Adding two non-negative integers is exact below 2^53. *)
Lemma add_of_Z (a b : Z) :
  0 <= a -> 0 <= b -> a + b < 2 ^ 53 -> add (of_Z a) (of_Z b) = of_Z (a + b).
Proof.
  intros Ha Hb Hab.
  destruct a as [ | pa | pa ]; [ | | lia].
  - (* 0 + b *)
    rewrite Z.add_0_l. destruct b as [ | pb | pb ]; [reflexivity | | lia].
    destruct (of_Z_normal pb) as (mb & EB & _); [lia | ]. rewrite EB. reflexivity.
  - destruct b as [ | pb | pb ]; [ | | lia].
    + rewrite Z.add_0_r.
      destruct (of_Z_normal pa) as (ma & EA & _); [lia | ]. rewrite EA. reflexivity.
    + destruct (of_Z_normal pa) as (ma & EA & Ema & Hma); [lia | ].
      destruct (of_Z_normal pb) as (mb & EB & Emb & Hmb); [lia | ].
      pose proof (digits2_pos_bounds pa) as Hba.
      pose proof (digits2_pos_bounds pb) as Hbb.
      set (da := Zpos (digits2_pos pa)) in *.
      set (db := Zpos (digits2_pos pb)) in *.
      assert (Hda : 1 <= da <= 53).
      { split; [unfold da; lia | ].
        destruct (Z.le_gt_cases da 53) as [ | Hgt]; [assumption | exfalso].
        assert (2 ^ 53 <= 2 ^ (da - 1)) by (apply Z.pow_le_mono_r; lia). lia. }
      assert (Hdb : 1 <= db <= 53).
      { split; [unfold db; lia | ].
        destruct (Z.le_gt_cases db 53) as [ | Hgt]; [assumption | exfalso].
        assert (2 ^ 53 <= 2 ^ (db - 1)) by (apply Z.pow_le_mono_r; lia). lia. }
      rewrite EA, EB. unfold add, SFadd. cbn [cond_Zopp].
      set (ez := Z.min (da - 53) (db - 53)).
      assert (Hez : -52 <= ez <= 0) by (unfold ez; lia).
      pose proof (shl_align_fst ma (da - 53) ez ltac:(unfold ez; lia)) as Fa.
      pose proof (shl_align_fst mb (db - 53) ez ltac:(unfold ez; lia)) as Fb.
      assert (Hsum : Zpos (fst (shl_align ma (da - 53) ez))
                     + Zpos (fst (shl_align mb (db - 53) ez))
                     = Zpos (pa + pb) * 2 ^ (- ez)).
      { rewrite Fa, Fb, Ema, Emb, <- !Z.mul_assoc, <- !Z.pow_add_r by lia.
        replace (53 - da + (da - 53 - ez)) with (- ez) by lia.
        replace (53 - db + (db - 53 - ez)) with (- ez) by lia.
        rewrite Pos2Z.inj_add. ring. }
      destruct (Zpos (fst (shl_align ma (da - 53) ez))
                + Zpos (fst (shl_align mb (db - 53) ez))) as [ | M | M ] eqn:EM.
      * exfalso. assert (0 < Zpos (pa + pb) * 2 ^ (- ez))
          by (apply Z.mul_pos_pos; [lia | apply Z.pow_pos_nonneg; lia]).
        clear - Hsum H. lia.
      * unfold binary_normalize.
        replace ez with (- (- ez)) at 1 by lia.
        rewrite (binary_round_exact M (pa + pb) (- ez)); [reflexivity | lia | exact Hsum | ].
        rewrite Pos2Z.inj_add. exact Hab.
      * exfalso. assert (0 < Zpos (pa + pb) * 2 ^ (- ez))
          by (apply Z.mul_pos_pos; [lia | apply Z.pow_pos_nonneg; lia]).
        clear - Hsum H. lia.
Qed.

(** A [reduce] that adds integral percentages is exact. *)
Lemma fold_add_exact {A : Type} (g : A -> Number) (f : A -> Z) (l : list A) (s0 : Z) :
  (forall x, In x l -> g x = of_Z (f x) /\ 0 <= f x <= 100) ->
  0 <= s0 -> s0 + 100 * Z.of_nat (List.length l) < 2 ^ 53 ->
  fold_left (fun sum p => add sum (g p)) l (of_Z s0)
  = of_Z (s0 + DashboardView.sumZ (map f l)) /\
  0 <= DashboardView.sumZ (map f l) <= 100 * Z.of_nat (List.length l).
Proof.
  revert s0. induction l as [ | x rest IH ]; intros s0 Hg Hs0 Hbound.
  - cbn. rewrite Z.add_0_r. split; [reflexivity | lia].
  - destruct (Hg x (or_introl eq_refl)) as [Ex Hx].
    cbn [fold_left map DashboardView.sumZ fold_right List.length] in *.
    rewrite Nat2Z.inj_succ in *.
    rewrite Ex, add_of_Z by lia.
    destruct (IH (s0 + f x)) as [E Hsum].
    + intros y Hy. apply Hg. right. exact Hy.
    + lia.
    + lia.
    + rewrite E. fold (DashboardView.sumZ (map f rest)) in *.
      split; [f_equal; lia | lia].
Qed.

(** Rounding a quotient to 53 bits and then to an integer is rounding
    the exact quotient half up, as long as the grid of the 53-bit
    numbers is finer than [1 / n]. *)
Lemma mean_round_arith (S n N T U k : Z) :
  0 < n -> 0 < U -> 0 < T -> n < T -> T mod 2 = 0 ->
  2 * Z.abs (N * (U * n) - S * (T * U)) <= U * n ->
  2 * n * k <= 2 * S + n < 2 * n * k + 2 * n ->
  2 * T * k <= 2 * N + T < 2 * T * k + 2 * T.
Proof.
  intros Hn HU HT HnT Heven Herr Hk.
  assert (Hnear : 2 * Z.abs (N * n - S * T) <= n).
  { assert (E : N * (U * n) - S * (T * U) = U * (N * n - S * T)) by ring.
    rewrite E, Z.abs_mul, (Z.abs_eq U) in Herr by lia.
    assert (U * (2 * Z.abs (N * n - S * T)) <= U * n) by lia.
    apply Z.mul_le_mono_pos_l in H; assumption. }
  assert (ET : T = 2 * (T / 2)).
  { rewrite (Z.div_mod T 2) at 1 by lia. rewrite Heven. lia. }
  set (T2 := T / 2) in *.
  assert (L1 : (2 * n * k - n) * T <= 2 * S * T)
    by (apply Z.mul_le_mono_nonneg_r; lia).
  assert (L2 : 2 * S * T <= (2 * n * k + n - 1) * T)
    by (apply Z.mul_le_mono_nonneg_r; lia).
  assert (A1 : n * (2 * N - (2 * k - 1) * T) >= - n) by lia.
  assert (A2 : n * (2 * N - (2 * k + 1) * T) <= n - T) by lia.
  assert (B1 : 2 * N - (2 * k - 1) * T >= -1) by nia.
  assert (B2 : 2 * N - (2 * k + 1) * T < 0) by nia.
  rewrite ET in B1 |- *. lia.
Qed.

(** [Math.round(S / n)] for an integer sum [S] of at most [100 * n]. *)
Lemma mean_round (S : Z) (n : nat) :
  (0 < n)%nat -> Z.of_nat n < 2 ^ 32 -> 0 <= S <= 100 * Z.of_nat n ->
  Math_round (div (of_Z S) (of_nat n))
  = of_Z ((2 * S + Z.of_nat n) / (2 * Z.of_nat n)).
Proof.
  intros Hn0 Hn HS. unfold of_nat.
  destruct (Z.of_nat n) as [ | pn | pn ] eqn:En; try lia.
  destruct (of_Z_normal pn) as (mn & EY & Emn & Hmn); [lia | ].
  pose proof (digits2_pos_le_32 pn Hn) as Hdn.
  pose proof (digits2_pos_bounds pn) as Hbn.
  set (dn := Zpos (digits2_pos pn)) in *.
  destruct S as [ | pS | pS ]; [ | | lia].
  - rewrite EY. cbn [of_Z binary_normalize div SFdiv xorb Math_round].
    rewrite Z.div_small by lia. reflexivity.
  - destruct (of_Z_normal pS) as (mS & EX & EmS & HmS); [lia | ].
    pose proof (digits2_pos_bounds pS) as HbS.
    set (dS := Zpos (digits2_pos pS)) in *.
    assert (HdS : 1 <= dS <= dn + 7).
    { split; [unfold dS; lia | ].
      destruct (Z.le_gt_cases dS (dn + 7)) as [ | Hgt]; [assumption | exfalso].
      assert (2 ^ (dn + 7) <= 2 ^ (dS - 1)) by (apply Z.pow_le_mono_r; lia).
      rewrite Z.pow_add_r in H by lia. change (2 ^ 7) with 128 in H. lia. }
    rewrite EX, EY.
    destruct (div_normal mS mn (dS - 53) (dn - 53) HmS Hmn) as (N & j & E & HN & Hj & Herr);
      [lia | ].
    rewrite E, Math_round_normal by lia. f_equal.
    set (t := - (dS - 53 - (dn - 53) - 53 + j)).
    assert (Ht : 44 <= t) by (unfold t; lia).
    replace (t + 1) with (Z.succ t) by lia. rewrite Z.pow_succ_r by lia.
    set (T := 2 ^ t).
    assert (HT : 2 ^ 44 <= T) by (apply Z.pow_le_mono_r; lia).
    assert (Heven : T mod 2 = 0).
    { unfold T. replace t with (Z.succ (t - 1)) by lia.
      rewrite Z.pow_succ_r by lia. rewrite Z.mul_comm. apply Z_mod_mult. }
    set (k := (2 * Zpos pS + Zpos pn) / (2 * Zpos pn)).
    assert (Hk : 2 * Zpos pn * k <= 2 * Zpos pS + Zpos pn < 2 * Zpos pn * k + 2 * Zpos pn).
    { pose proof (Z.mul_div_le (2 * Zpos pS + Zpos pn) (2 * Zpos pn) ltac:(lia)).
      pose proof (Z.mul_succ_div_gt (2 * Zpos pS + Zpos pn) (2 * Zpos pn) ltac:(lia)).
      fold k in H, H0. lia. }
    assert (HP : 0 < 2 ^ j) by (apply Z.pow_pos_nonneg; lia).
    assert (HA : 0 < 2 ^ (53 - dn)) by (apply Z.pow_pos_nonneg; lia).
    assert (HU : 0 < 2 ^ j * 2 ^ (53 - dn)) by (apply Z.mul_pos_pos; assumption).
    assert (Herr' : 2 * Z.abs (Zpos N * (2 ^ j * 2 ^ (53 - dn) * Zpos pn)
                               - Zpos pS * (T * (2 ^ j * 2 ^ (53 - dn))))
                    <= 2 ^ j * 2 ^ (53 - dn) * Zpos pn).
    { replace (2 ^ j * 2 ^ (53 - dn) * Zpos pn) with (2 ^ j * Zpos mn)
        by (rewrite Emn; ring).
      replace (Zpos pS * (T * (2 ^ j * 2 ^ (53 - dn)))) with (Zpos mS * 2 ^ 53);
        [exact Herr | ].
      rewrite EmS. unfold T, t. rewrite <- !Z.mul_assoc. f_equal.
      rewrite <- !Z.pow_add_r by lia. f_equal. lia. }
    pose proof (mean_round_arith (Zpos pS) (Zpos pn) (Zpos N) T
                  (2 ^ j * 2 ^ (53 - dn)) k
                  ltac:(lia) HU ltac:(lia) ltac:(lia) Heven Herr' Hk) as Hbounds.
    symmetry. apply (Z.div_unique _ _ k (2 * Zpos N + T - 2 * T * k)); lia.
Qed.

(** A number divided by itself is 1. *)
Lemma div_same (n : nat) :
  (0 < n)%nat -> Z.of_nat n < 2 ^ 53 -> div (of_nat n) (of_nat n) = of_Z 1.
Proof.
  intros Hn0 Hn. unfold of_nat.
  destruct (Z.of_nat n) as [ | pn | pn ] eqn:En; try lia.
  destruct (of_Z_normal pn) as (mn & EY & Emn & Hmn); [lia | ].
  rewrite EY.
  destruct (div_normal mn mn (Zpos (digits2_pos pn) - 53) (Zpos (digits2_pos pn) - 53)
              Hmn Hmn) as (N & j & E & HN & Hj & Herr); [lia | ].
  rewrite E.
  assert (Hnear : 2 * Z.abs (Zpos N * 2 ^ j - 2 ^ 53) <= 2 ^ j).
  { assert (Eq : Zpos N * (2 ^ j * Zpos mn) - Zpos mn * 2 ^ 53
                 = Zpos mn * (Zpos N * 2 ^ j - 2 ^ 53)) by ring.
    rewrite Eq, Z.abs_mul, (Z.abs_eq (Zpos mn)) in Herr by lia.
    assert (Zpos mn * (2 * Z.abs (Zpos N * 2 ^ j - 2 ^ 53)) <= Zpos mn * 2 ^ j) by lia.
    apply Z.mul_le_mono_pos_l in H; [assumption | lia]. }
  assert (Hcases : j = 0 \/ j = 1 \/ j = 2) by lia.
  destruct Hcases as [-> | [-> | ->]].
  - change (2 ^ 0) with 1 in Hnear. lia.
  - change (2 ^ 1) with 2 in Hnear.
    assert (Zpos N = 2 ^ 52) as EN by lia.
    replace N with 4503599627370496%positive by lia.
    replace (Zpos (digits2_pos pn) - 53 - (Zpos (digits2_pos pn) - 53) - 53 + 1) with (-52) by lia.
    reflexivity.
  - change (2 ^ 2) with 4 in Hnear. lia.
Qed.

(* ================================================================== *)
(** ** More on the dashboard                                          *)
(* ================================================================== *)

Section DashboardExtras.
Import Dashboard DashboardView.
Local Open Scope string_scope.

Lemma find_first_of_key {A : Type} (key : A -> string) (l : list A) (p : A) :
  NoDup (map key l) -> In p l ->
  JSArray.find (fun q => String.eqb (key q) (key p)) l = Some p.
Proof.
  unfold JSArray.find.
  induction l as [ | x rest IH ]; intros Hnd Hin; [contradiction | ].
  cbn [map] in Hnd. inversion Hnd as [ | ? ? Hnotin Hrest ]; subst.
  cbn [find]. destruct Hin as [-> | Hin].
  - rewrite String.eqb_refl. reflexivity.
  - destruct (String.eqb_spec (key x) (key p)) as [E | _].
    + exfalso. apply Hnotin. rewrite E. apply in_map. exact Hin.
    + apply IH; assumption.
Qed.

(** X1: completing more milestones of a path never lowers its
    percentage. *)
Theorem X1_percentage_monotone (c c' m : nat) :
  (0 < m)%nat -> (c <= c')%nat ->
  Z.of_nat c' < 2 ^ 32 -> Z.of_nat m < 2 ^ 32 ->
  exists k k', percentage c m = of_Z k /\ percentage c' m = of_Z k' /\ 0 <= k <= k'.
Proof.
  intros Hm Hcc Hc' Hm32.
  destruct (percentage_nearest c m Hm) as (k & E & Hk & Hn); [lia | lia | ].
  destruct (percentage_nearest c' m Hm) as (k' & E' & Hk' & Hn'); [lia | lia | ].
  exists k, k'. split; [exact E | split; [exact E' | ] ]. split; [lia | ].
  destruct (Nat.eq_dec c c') as [-> | Hne].
  - rewrite E in E'. apply of_Z_inj in E'; lia.
  - assert (Hlt : Z.of_nat c + 1 <= Z.of_nat c') by lia.
    assert (2 * Z.of_nat m * (k - k') < 2 * Z.of_nat m * 1) by lia.
    apply Z.mul_lt_mono_pos_l in H; lia.
Qed.

Lemma X1_percentage_monotone_witness :
  exists k k', percentage 2 5 = of_Z k /\ percentage 3 5 = of_Z k' /\ 0 <= k <= k'.
Proof. apply (X1_percentage_monotone 2 3 5); cbn; lia. Defined.

(** X2: a card of "All Career Paths" counts as started only if the
    completed milestones are at least half a percent of the path's
    milestones, and does whenever they are more than that; so a path
    with one milestone completed out of more than 200 still shows
    "Start Learning".  Without a progress record a path is never
    started. *)
Theorem X2_started_threshold userProgress careerPaths pathId :
  (forall progress path,
      JSArray.find (fun p => String.eqb (career_path_id p) pathId) userProgress
        = Some progress ->
      JSArray.find (fun p => String.eqb (id p) pathId) careerPaths = Some path ->
      (0 < List.length (milestones path))%nat ->
      array_length_ok (completed_milestones progress) ->
      array_length_ok (milestones path) ->
      (isStarted userProgress careerPaths pathId = true ->
       Z.of_nat (List.length (milestones path))
       <= 200 * Z.of_nat (List.length (completed_milestones progress))) /\
      (Z.of_nat (List.length (milestones path))
       < 200 * Z.of_nat (List.length (completed_milestones progress)) ->
       isStarted userProgress careerPaths pathId = true)) /\
  (JSArray.find (fun p => String.eqb (career_path_id p) pathId) userProgress = None ->
   isStarted userProgress careerPaths pathId = false).
Proof.
  split.
  - intros progress path Hp Hc Hpos Hc32 Hm32. unfold isStarted.
    rewrite (getPathProgress_found _ _ _ _ _ Hp Hc).
    destruct (percentage_nearest _ _ Hpos Hc32 Hm32) as (k & E & Hk & Hnear).
    rewrite E, gt_of_Z_0 by assumption.
    set (c := Z.of_nat (List.length (completed_milestones progress))) in *.
    set (m := Z.of_nat (List.length (milestones path))) in *.
    assert (Hm : 0 < m) by (unfold m; lia).
    split.
    + intros Hgt. apply Z.ltb_lt in Hgt.
      assert (2 * m * 1 <= 2 * m * k) by (apply Z.mul_le_mono_nonneg_l; lia). lia.
    + intros Hlt. apply Z.ltb_lt.
      destruct (Z.eq_dec k 0) as [-> | Hne]; [ | lia].
      rewrite Z.mul_0_r in Hnear. lia.
  - intros Hnone. unfold isStarted, getPathProgress. rewrite Hnone. reflexivity.
Qed.

Lemma X2_started_threshold_witness :
  isStarted Examples.progress Examples.catalog "backend" = true /\
  isStarted Examples.progress Examples.catalog "cloud" = false.
Proof.
  split.
  - destruct (X2_started_threshold Examples.progress Examples.catalog "backend")
      as [Hfound _].
    destruct (Hfound (Examples.record_of "backend" 2) (Examples.path_of "backend" 5)
                     eq_refl eq_refl) as [_ Hstarted].
    + cbn. lia.
    + unfold array_length_ok. cbn. lia.
    + unfold array_length_ok. cbn. lia.
    + apply Hstarted. cbn. lia.
  - destruct (X2_started_threshold Examples.progress Examples.catalog "cloud")
      as [_ Hnone].
    apply Hnone. reflexivity.
Defined.

Lemma percentage_full (m : nat) :
  (0 < m)%nat -> Z.of_nat m < 2 ^ 32 -> percentage m m = of_Z 100.
Proof.
  intros Hm Hm32.
  destruct (percentage_nearest m m Hm Hm32 Hm32) as (k & E & Hk & Hnear).
  rewrite E. f_equal.
  assert (Z.abs (2 * Z.of_nat m * (k - 100)) <= Z.of_nat m * 1)
    by (replace (2 * Z.of_nat m * (k - 100))
          with (2 * Z.of_nat m * k - 200 * Z.of_nat m) by ring; lia).
  rewrite Z.abs_mul, Z.abs_eq in H by lia.
  assert (Z.of_nat m * (2 * Z.abs (k - 100)) <= Z.of_nat m * 1) by lia.
  apply Z.mul_le_mono_pos_l in H0; lia.
Qed.

(** X3: when no two records share a career path, every record that
    [getCompletedCount] counts as completed (its path is in the catalog
    with as many milestones, at least one, as the record has completed)
    is displayed with 100%. *)
Theorem X3_completed_record_shows_100 userProgress careerPaths p path :
  NoDup (map career_path_id userProgress) ->
  In p userProgress ->
  JSArray.find (fun cp => String.eqb (id cp) (career_path_id p)) careerPaths = Some path ->
  List.length (completed_milestones p) = List.length (milestones path) ->
  (0 < List.length (milestones path))%nat ->
  array_length_ok (milestones path) ->
  getPathProgress userProgress careerPaths (career_path_id p) = of_Z 100.
Proof.
  intros Hnd Hin Hpath Hlen Hpos H32.
  rewrite (getPathProgress_found _ _ _ p path);
    [ | apply find_first_of_key; assumption | exact Hpath ].
  rewrite Hlen. apply percentage_full; assumption.
Qed.

Lemma X3_completed_record_shows_100_witness :
  getPathProgress Examples.progress Examples.catalog "data" = of_Z 100.
Proof.
  apply (X3_completed_record_shows_100 Examples.progress Examples.catalog
           (Examples.record_of "data" 2) (Examples.path_of "data" 2)).
  - repeat constructor; cbn; intuition discriminate.
  - cbn. tauto.
  - reflexivity.
  - reflexivity.
  - cbn. lia.
  - unfold array_length_ok. cbn. lia.
Defined.

Lemma percentage_range (c m : nat) :
  (0 < m)%nat -> (c <= m)%nat -> Z.of_nat m < 2 ^ 32 ->
  exists k, percentage c m = of_Z k /\ 0 <= k <= 100.
Proof.
  intros Hm Hcm Hm32.
  destruct (percentage_nearest c m Hm) as (k & E & Hk & Hnear); [lia | lia | ].
  exists k. split; [exact E | ]. split; [lia | ].
  destruct (Z.le_gt_cases k 100) as [ | Hgt]; [assumption | exfalso].
  assert (2 * Z.of_nat m * 101 <= 2 * Z.of_nat m * k)
    by (apply Z.mul_le_mono_nonneg_l; lia).
  lia.
Qed.

(** X4: when every record's path, if in the catalog, has at least one
    milestone and the record's completed milestones are a subset of
    them, every percentage is an integer in [0,100], the sum of the
    "Average" tile is exact and the tile shows the mean of the
    records' percentages rounded half up, itself in [0,100]. *)
Theorem X4_average_is_rounded_mean userProgress careerPaths :
  array_length_ok userProgress ->
  (forall p path,
      In p userProgress ->
      JSArray.find (fun cp => String.eqb (id cp) (career_path_id p)) careerPaths = Some path ->
      (0 < List.length (milestones path))%nat /\
      array_length_ok (milestones path) /\
      subset_of_milestones p path = true) ->
  exists f : ProgressRecord -> Z,
    (forall p, In p userProgress ->
               getPathProgress userProgress careerPaths (career_path_id p) = of_Z (f p) /\
               0 <= f p <= 100) /\
    averageProgress userProgress careerPaths
    = of_Z ((2 * sumZ (map f userProgress) + Z.of_nat (List.length userProgress))
            / (2 * Z.of_nat (List.length userProgress))) /\
    0 <= (2 * sumZ (map f userProgress) + Z.of_nat (List.length userProgress))
         / (2 * Z.of_nat (List.length userProgress)) <= 100.
Proof.
  intros Hn32 Hwf. unfold array_length_ok in Hn32.
  set (f := fun p => match to_Z (getPathProgress userProgress careerPaths (career_path_id p)) with
                     | Some k => k
                     | None => 0
                     end).
  assert (Hf : forall p, In p userProgress ->
             getPathProgress userProgress careerPaths (career_path_id p) = of_Z (f p) /\
             0 <= f p <= 100).
  { intros p Hin.
    assert (Hk : exists k, getPathProgress userProgress careerPaths (career_path_id p) = of_Z k
                           /\ 0 <= k <= 100).
    { unfold getPathProgress.
      destruct (JSArray.find (fun q => String.eqb (career_path_id q) (career_path_id p))
                             userProgress) as [p' | ] eqn:Ep;
        [ | exists 0; split; [reflexivity | lia] ].
      apply find_some in Ep as [Hin' Eid]. apply String.eqb_eq in Eid.
      destruct (JSArray.find (fun cp => String.eqb (id cp) (career_path_id p)) careerPaths)
        as [path | ] eqn:Ec; [ | exists 0; split; [reflexivity | lia] ].
      rewrite <- Eid in Ec.
      destruct (Hwf p' path Hin' Ec) as (Hpos & H32 & Hsub).
      apply (percentage_range _ _ Hpos (subset_of_milestones_length _ _ Hsub) H32). }
    destruct Hk as (k & E & Hk). unfold f. rewrite E, to_Z_of_Z by lia.
    split; [reflexivity | assumption]. }
  exists f. split; [exact Hf | ].
  destruct (fold_add_exact
              (fun p => getPathProgress userProgress careerPaths (career_path_id p))
              f userProgress 0 Hf ltac:(lia) ltac:(lia)) as [Esum Hsum].
  rewrite Z.add_0_l in Esum.
  set (S := sumZ (map f userProgress)) in *.
  set (n := Z.of_nat (List.length userProgress)) in *.
  assert (Hrange : 0 <= (2 * S + n) / (2 * n) <= 100).
  { destruct (Z.eq_dec n 0) as [-> | Hne].
    - rewrite Z.mul_0_r, Z.div_0_r. lia.
    - split; [apply Z.div_pos; lia | ].
      assert ((2 * S + n) / (2 * n) < 101) by (apply Z.div_lt_upper_bound; lia).
      lia. }
  split; [ | exact Hrange ].
  unfold averageProgress.
  destruct (Nat.ltb_spec 0 (List.length userProgress)) as [Hpos | Hzero].
  - rewrite Esum. apply mean_round; [assumption | lia | lia].
  - assert (n = 0) by (unfold n; lia).
    rewrite H, Z.mul_0_r, Z.div_0_r. reflexivity.
Qed.

Lemma X4_average_is_rounded_mean_witness :
  exists f : ProgressRecord -> Z,
    (forall p, In p Examples.progress ->
               getPathProgress Examples.progress Examples.catalog (career_path_id p)
               = of_Z (f p) /\ 0 <= f p <= 100) /\
    averageProgress Examples.progress Examples.catalog
    = of_Z ((2 * sumZ (map f Examples.progress) + 3) / (2 * 3)) /\
    0 <= (2 * sumZ (map f Examples.progress) + 3) / (2 * 3) <= 100.
Proof.
  apply (X4_average_is_rounded_mean Examples.progress Examples.catalog).
  - unfold array_length_ok. cbn. lia.
  - intros p path Hin Hfind.
    cbn in Hin. destruct Hin as [<- | [<- | [<- | [] ] ] ];
      cbn in Hfind; injection Hfind as <-;
      (split; [cbn; lia | split; [unfold array_length_ok; cbn; lia | reflexivity] ]).
Defined.

End DashboardExtras.

Section TileExtras.
Import Dashboard DashboardView.
Local Open Scope string_scope.

(** X5: on the profile screen "Paths Completed" never exceeds the
    number of paths started, "Milestones" is the number the dashboard
    shows, and a failed fetch keeps the statistics shown so far; in
    both cases the spinner is removed. *)
Theorem X5_profile_statistics (res : Profile.Responses) (st : Profile.State) :
  (Profile.completedPaths (Profile.stats (Profile.fetchStats (Some res) st))
   <= Profile.totalPaths (Profile.stats (Profile.fetchStats (Some res) st)))%nat /\
  Profile.totalPaths (Profile.stats (Profile.fetchStats (Some res) st))
  = List.length (Profile.progressRes res) /\
  Profile.totalMilestones (Profile.stats (Profile.fetchStats (Some res) st))
  = getTotalMilestonesCompleted (Profile.progressRes res) /\
  Profile.loading (Profile.fetchStats (Some res) st) = false /\
  Profile.stats (Profile.fetchStats None st) = Profile.stats st /\
  Profile.loading (Profile.fetchStats None st) = false.
Proof.
  cbn [Profile.fetchStats Profile.stats Profile.completedPaths Profile.totalPaths
       Profile.totalMilestones Profile.loading].
  repeat split. apply filter_length_le.
Qed.

(** The two folds of the dashboard tiles, from any starting sums. *)
Lemma completed_le_milestones_fold careerPaths (l : list ProgressRecord) (a b : nat) :
  (forall path, In path careerPaths -> (0 < List.length (milestones path))%nat) ->
  (a <= b)%nat ->
  (fold_left
     (fun sum p =>
        match JSArray.find (fun cp => String.eqb (id cp) (career_path_id p)) careerPaths with
        | Some path =>
            if Nat.eqb (List.length (completed_milestones p)) (List.length (milestones path))
            then (sum + 1)%nat else sum
        | None => sum
        end) l a
   <= fold_left (fun sum p => (sum + List.length (completed_milestones p))%nat) l b)%nat.
Proof.
  intros Hpos. revert a b. induction l as [ | p rest IH ]; intros a b Hab; cbn [fold_left].
  - exact Hab.
  - apply IH.
    destruct (JSArray.find (fun cp => String.eqb (id cp) (career_path_id p)) careerPaths)
      as [path | ] eqn:Ef; [ | lia].
    apply find_some in Ef as [Hin _]. specialize (Hpos _ Hin).
    destruct (Nat.eqb_spec (List.length (completed_milestones p))
                           (List.length (milestones path))); lia.
Qed.

(** X6: when every path of the catalog has at least one milestone,
    the "Paths Completed" tile never exceeds the "Milestones Achieved"
    tile. *)
Theorem X6_completed_paths_le_milestones userProgress careerPaths :
  (forall path, In path careerPaths -> (0 < List.length (milestones path))%nat) ->
  (getCompletedCount userProgress careerPaths
   <= getTotalMilestonesCompleted userProgress)%nat.
Proof.
  intros Hpos. unfold getCompletedCount, getTotalMilestonesCompleted.
  apply completed_le_milestones_fold; [exact Hpos | lia].
Qed.

Lemma X6_completed_paths_le_milestones_witness :
  (getCompletedCount Examples.progress Examples.catalog
   <= getTotalMilestonesCompleted Examples.progress)%nat.
Proof.
  apply (X6_completed_paths_le_milestones Examples.progress Examples.catalog).
  intros path Hin. cbn in Hin.
  destruct Hin as [<- | [<- | [<- | [] ] ] ]; cbn; lia.
Defined.

Lemma includes_In (l : list string) (x : string) : includes l x = true <-> In x l.
Proof.
  unfold includes. rewrite existsb_exists. split.
  - intros (y & Hy & E). apply String.eqb_eq in E. subst. exact Hy.
  - intros H. exists x. split; [exact H | apply String.eqb_refl].
Qed.

(** X7: the "Recommended For You" section shows exactly the paths of
    the catalog whose identifier is recommended, each with its own
    percentage, in catalog order: a recommended identifier that is not
    in the catalog is dropped, and naming an identifier twice does not
    duplicate its card. *)
Theorem X7_recommended_cards userProgress careerPaths user :
  (forall path pct,
      In (path, pct) (recommendedCards userProgress careerPaths user) <->
      In path careerPaths /\ In (id path) (recommendedPaths user) /\
      pct = getPathProgress userProgress careerPaths (id path)) /\
  map fst (recommendedCards userProgress careerPaths user)
  = filter (fun path => includes (recommendedPaths user) (id path)) careerPaths /\
  (NoDup careerPaths ->
   NoDup (map fst (recommendedCards userProgress careerPaths user))).
Proof.
  assert (Hempty : hasRecommendations user = false -> recommendedPaths user = []).
  { unfold hasRecommendations. destruct (recommendedPaths user); [reflexivity | ].
    cbn. discriminate. }
  assert (Hmap : map fst (recommendedCards userProgress careerPaths user)
                 = filter (fun path => includes (recommendedPaths user) (id path))
                          careerPaths).
  { unfold recommendedCards. destruct (hasRecommendations user) eqn:Eh.
    - rewrite map_map. cbn [fst]. apply map_id.
    - rewrite (Hempty eq_refl). cbn [map].
      induction careerPaths as [ | x rest IH ]; [reflexivity | exact IH]. }
  split; [ | split ].
  - intros path pct. unfold recommendedCards.
    destruct (hasRecommendations user) eqn:Eh.
    + rewrite in_map_iff. split.
      * intros (x & E & Hin). injection E as <- <-.
        apply filter_In in Hin as [Hin Hinc]. apply includes_In in Hinc. tauto.
      * intros (Hin & Hrec & ->). exists path. split; [reflexivity | ].
        apply filter_In. split; [exact Hin | apply includes_In; exact Hrec].
    + rewrite (Hempty eq_refl). cbn [In]. tauto.
  - exact Hmap.
  - intros Hnd. rewrite Hmap. apply NoDup_filter. exact Hnd.
Qed.

End TileExtras.

Section TileWitnesses.
Import Dashboard DashboardView.
Local Open Scope string_scope.

Lemma X7_recommended_cards_witness :
  map fst (recommendedCards Examples.progress Examples.catalog MoreExamples.learner)
  = [Examples.path_of "frontend" 4; Examples.path_of "data" 2] /\
  NoDup (map fst (recommendedCards Examples.progress Examples.catalog MoreExamples.learner)).
Proof.
  destruct (X7_recommended_cards Examples.progress Examples.catalog MoreExamples.learner)
    as (_ & Hmap & Hnodup).
  split.
  - rewrite Hmap. reflexivity.
  - apply Hnodup. repeat constructor; cbn; intuition discriminate.
Defined.

End TileWitnesses.

(* ================================================================== *)
(** ** More on the quiz wizard                                        *)
(* ================================================================== *)

Section MoreArrayFacts.
Context {A : Type}.

Lemma get_set_same (a : JSArray.sparse A) (i : nat) (v : A) :
  JSArray.get (JSArray.set a i v) i = Some v.
Proof.
  unfold JSArray.get. revert a.
  induction i as [ | j IH ]; intros [ | x rest ]; cbn [JSArray.set nth_error];
    try reflexivity; apply IH.
Qed.

Lemma get_set_other (a : JSArray.sparse A) (i j : nat) (v : A) :
  i <> j -> JSArray.get (JSArray.set a i v) j = JSArray.get a j.
Proof.
  unfold JSArray.get. revert a j.
  induction i as [ | i' IH ]; intros [ | x rest ] [ | j' ] Hne;
    cbn [JSArray.set nth_error]; try reflexivity; try congruence.
  - destruct j'; reflexivity.
  - rewrite IH by congruence. destruct j'; reflexivity.
  - apply IH. congruence.
Qed.

Lemma set_set (a : JSArray.sparse A) (i : nat) (v w : A) :
  JSArray.set (JSArray.set a i v) i w = JSArray.set a i w.
Proof.
  revert a. induction i as [ | j IH ]; intros [ | x rest ]; cbn [JSArray.set];
    try reflexivity; f_equal; apply IH.
Qed.

End MoreArrayFacts.

Section QuizExtras.
Import Quiz QuizView.
Local Open Scope string_scope.

(** X8: choosing an option stores it in the slot of the current
    question with that question's identifier, leaves every other slot
    as it was, marks the option as selected, and choosing again
    replaces the earlier choice: only the last answer per question
    remains. *)
Theorem X8_last_answer_wins st j k st1 :
  handleAnswer j st = Some st1 ->
  (exists q, nth_error (questions st) (currentQuestion st) = Some q /\
             JSArray.get (answers st1) (currentQuestion st)
             = Some {| answer_question_id := question_id q; selected_option := j |}) /\
  (forall i, i <> currentQuestion st ->
             JSArray.get (answers st1) i = JSArray.get (answers st) i) /\
  List.length (answers st1)
  = Nat.max (List.length (answers st)) (currentQuestion st + 1) /\
  isSelected st1 j = true /\
  handleAnswer k st1 = handleAnswer k st.
Proof.
  unfold handleAnswer. intros H.
  destruct (nth_error (questions st) (currentQuestion st)) as [q | ] eqn:Eq;
    [ | discriminate ].
  injection H as <-. cbn [setAnswers answers questions currentQuestion].
  split; [ | split; [ | split; [ | split ] ] ].
  - exists q. split; [reflexivity | apply get_set_same].
  - intros i Hi. apply get_set_other. congruence.
  - apply set_length.
  - unfold isSelected. cbn [setAnswers answers currentQuestion].
    rewrite get_set_same. cbn [selected_option]. apply Nat.eqb_refl.
  - rewrite Eq, set_set. reflexivity.
Qed.

Lemma X8_last_answer_wins_witness :
  handleAnswer 0 MoreExamples.first_answered
  = handleAnswer 0 (initial Examples.two_questions).
Proof.
  destruct (X8_last_answer_wins (initial Examples.two_questions) 1 0
              MoreExamples.first_answered eq_refl) as (_ & _ & _ & _ & H).
  exact H.
Defined.

Lemma displayed_view st q :
  displayed st = Some q ->
  results st = None /\ nth_error (questions st) (currentQuestion st) = Some q.
Proof.
  unfold displayed, view. destruct (loading st); [discriminate | ].
  destruct (results st); [discriminate | ]. intros H. split; [reflexivity | exact H].
Qed.

Lemma dense_get (a : JSArray.sparse QuizAnswer) (i : nat) :
  Forall (fun slot => slot <> None) a -> (i < List.length a)%nat ->
  exists v, JSArray.get a i = Some v.
Proof.
  intros Hd Hi. destruct (JSArray.get a i) as [v | ] eqn:E; [exists v; reflexivity | ].
  apply (get_none_dense _ _ Hd) in E. lia.
Qed.

Lemma step_quiz_invariant qs st st' :
  step st st' -> quiz_invariant qs st -> quiz_invariant qs st'.
Proof.
  intros Hstep Hinv.
  pose proof (step_invariant _ _ Hstep (proj1 Hinv)) as Hbase.
  destruct Hinv as ((Hlen & Hdense & Hcur) & Hqs & Hload & Hidx & Hmatch & Hsub & Hbody).
  split; [exact Hbase | ]. clear Hbase.
  unfold answers_match, submission_consistent in *.
  destruct Hstep as [ st q i st' Hq Hi Ha | st q Hq Hr Hd | st q Hq Hd
                    | st q Hq Hr Hd | st r Hin ].
  - (* an option is chosen *)
    destruct (displayed_view _ _ Hq) as [Hres Hnth].
    unfold handleAnswer in Ha. rewrite Hnth in Ha. injection Ha as <-.
    cbn [setAnswers answers questions currentQuestion loading results submitting inflight].
    split; [exact Hqs | split; [exact Hload | split; [exact Hidx | split;
      [ | split; [exact Hsub | exact Hbody] ] ] ] ].
    intros i' a Hget.
    destruct (Nat.eq_dec (currentQuestion st) i') as [<- | Hne].
    + rewrite get_set_same in Hget. injection Hget as <-.
      exists q. cbn [answer_question_id selected_option].
      split; [exact Hnth | split; [reflexivity | exact Hi] ].
    + rewrite get_set_other in Hget by assumption. apply Hmatch. exact Hget.
  - (* Next *)
    unfold handleNext, next_rendered in *. rewrite Hr.
    cbn [setCurrentQuestion answers questions currentQuestion loading results
         submitting inflight].
    split; [exact Hqs | split; [exact Hload | split; [ | split;
      [exact Hmatch | split; [exact Hsub | exact Hbody] ] ] ] ].
    intros _. apply Z.ltb_lt in Hr. rewrite <- Hqs. lia.
  - (* Previous *)
    unfold handlePrevious. destruct (0 <? currentQuestion st)%nat;
      cbn [setCurrentQuestion answers questions currentQuestion loading results
           submitting inflight];
      (split; [exact Hqs | split; [exact Hload | split; [ | split;
         [exact Hmatch | split; [exact Hsub | exact Hbody] ] ] ] ]).
    + intros Hne. specialize (Hidx Hne). lia.
    + exact Hidx.
  - (* Submit *)
    destruct (displayed_view _ _ Hq) as [Hres Hnth].
    unfold submit_disabled in Hd. apply orb_false_iff in Hd as [Hd1 Hd2].
    apply negb_false_iff in Hd1.
    unfold handleSubmit_send. rewrite Hd1. cbn [negb].
    apply Nat.eqb_eq in Hd1.
    rewrite Hres in Hsub.
    destruct Hsub as [ [Hs _] | [_ Hempty] ]; [congruence | ].
    assert (Hcomplete : complete_for qs (answers st)).
    { split; [congruence | ]. intros i' q' Hq'. rewrite <- Hqs in Hq'.
      assert (Hi' : (i' < List.length (answers st))%nat).
      { rewrite Hd1. apply nth_error_Some. congruence. }
      destruct (dense_get _ _ Hdense Hi') as (a & Hget).
      destruct (Hmatch _ _ Hget) as (q'' & Hq'' & Hid & Hopt).
      exists a. rewrite Hq' in Hq''. injection Hq'' as <-.
      split; [exact Hget | split; assumption]. }
    cbn [setInflight setSubmitting answers questions currentQuestion loading results
         submitting inflight].
    rewrite Hres, Hempty.
    split; [exact Hqs | split; [exact Hload | split; [exact Hidx | split;
      [exact Hmatch | split ] ] ] ].
    + left. split; [reflexivity | eexists; reflexivity].
    + intros body [<- | []]. exact Hcomplete.
  - (* the request is settled *)
    destruct (results st) as [res | ] eqn:Hres; [congruence | ].
    destruct Hsub as [ [Hs (body & Hb)] | [_ Hempty] ]; [ | congruence ].
    unfold handleSubmit_settle. rewrite Hb. cbn [removelast].
    destruct r;
      cbn [setInflight setSubmitting setResults alert answers questions currentQuestion
           loading results submitting inflight];
      (split; [exact Hqs | split; [exact Hload | split; [exact Hidx | split;
         [exact Hmatch | split ] ] ] ]).
    + reflexivity.
    + intros b [].
    + rewrite Hres. right. split; reflexivity.
    + intros b [].
Qed.

Lemma reachable_quiz_invariant qs st : reachable qs st -> quiz_invariant qs st.
Proof.
  induction 1 as [ | st st' _ IH Hstep ].
  - unfold quiz_invariant, invariant, answers_match, submission_consistent.
    cbn [initial questions currentQuestion answers loading submitting results inflight
         List.length].
    split; [split; [lia | split; [constructor | lia] ] | ].
    split; [reflexivity | split; [reflexivity | split; [ | split; [ | split ] ] ] ].
    + intros Hne. destruct qs; [congruence | cbn; lia].
    + intros i a Hget. unfold JSArray.get in Hget. destruct i; discriminate.
    + right. split; reflexivity.
    + intros body [].
  - exact (step_quiz_invariant _ _ _ Hstep IH).
Qed.

(** X9: in every reachable state the wizard shows the questions it
    was given, the spinner is gone, and the current index designates
    one of them (when there is any). *)
Theorem X9_current_question_in_range qs st :
  reachable qs st ->
  questions st = qs /\ loading st = false /\
  (qs <> [] -> exists q, nth_error qs (currentQuestion st) = Some q).
Proof.
  intros Hreach.
  destruct (reachable_quiz_invariant _ _ Hreach) as (_ & Hqs & Hload & Hidx & _).
  split; [exact Hqs | split; [exact Hload | ] ].
  intros Hne. specialize (Hidx Hne).
  destruct (nth_error qs (currentQuestion st)) as [q | ] eqn:E; [exists q; reflexivity | ].
  apply nth_error_None in E. lia.
Qed.

Lemma X9_current_question_in_range_witness :
  questions Examples.answered = Examples.two_questions /\
  loading Examples.answered = false /\
  (Examples.two_questions <> [] ->
   exists q, nth_error Examples.two_questions (currentQuestion Examples.answered) = Some q).
Proof.
  exact (X9_current_question_in_range Examples.two_questions Examples.answered
           answered_reachable).
Defined.

(** X10: in every reachable state each filled slot holds the
    identifier of the question at its position and an option index of
    that question, and every body posted to the server answers every
    question of the list, in order, exactly once. *)
Theorem X10_posted_answers_complete qs st :
  reachable qs st ->
  answers_match st /\
  (forall body, In body (inflight st) -> complete_for qs body) /\
  (forall q, displayed st = Some q -> next_rendered st = false ->
             submit_disabled st = false ->
             inflight (handleSubmit_send st) = [answers st] /\
             complete_for qs (answers st)).
Proof.
  intros Hreach.
  pose proof (reachable_quiz_invariant _ _ Hreach) as Hinv.
  destruct Hinv as (_ & _ & _ & _ & Hmatch & _ & Hbody).
  split; [exact Hmatch | split; [exact Hbody | ] ].
  intros q Hq Hr Hd.
  assert (Hnext : reachable qs (handleSubmit_send st)).
  { apply (reachable_step _ st); [exact Hreach | apply (step_submit st q); assumption]. }
  destruct (reachable_quiz_invariant _ _ Hnext) as (_ & _ & _ & _ & _ & Hsub' & Hbody').
  unfold submit_disabled in Hd. apply orb_false_iff in Hd as [Hd1 _].
  apply negb_false_iff in Hd1.
  assert (E : inflight (handleSubmit_send st) = answers st :: inflight st).
  { unfold handleSubmit_send. rewrite Hd1. reflexivity. }
  assert (Hone : inflight st = []).
  { unfold submission_consistent in Hsub'.
    destruct (results (handleSubmit_send st)).
    - rewrite E in Hsub'. discriminate.
    - destruct Hsub' as [ [_ (b & Hb)] | [_ Hb] ]; rewrite E in Hb;
        [injection Hb as _ Hrest; exact Hrest | discriminate]. }
  split; [rewrite E, Hone; reflexivity | ].
  apply Hbody'. rewrite E. left. reflexivity.
Qed.

Lemma X10_posted_answers_complete_witness :
  inflight (handleSubmit_send Examples.answered) = [answers Examples.answered] /\
  complete_for Examples.two_questions (answers Examples.answered).
Proof.
  destruct (X10_posted_answers_complete Examples.two_questions Examples.answered
              answered_reachable) as (_ & _ & Hsubmit).
  apply (Hsubmit {| question_id := "q2"; question := "Style?";
                    options := ["Video"; "Article"; "Course"] |}); reflexivity.
Defined.

(** X11: the wizard never has two submissions pending: a request is in
    flight exactly while [submitting] is set and no results have
    arrived, and then there is one. *)
Theorem X11_single_submission qs st :
  reachable qs st ->
  (List.length (inflight st) <= 1)%nat /\
  (inflight st <> [] <-> submitting st = true /\ results st = None).
Proof.
  intros Hreach.
  destruct (reachable_quiz_invariant _ _ Hreach) as (_ & _ & _ & _ & _ & Hsub & _).
  unfold submission_consistent in Hsub.
  destruct (results st) as [r | ].
  - rewrite Hsub. cbn. split; [lia | ]. split; [congruence | intros [_ H]; discriminate].
  - destruct Hsub as [ [Hs (b & Hb)] | [Hs Hb] ]; rewrite Hb, Hs; cbn.
    + split; [lia | ]. split; [tauto | discriminate].
    + split; [lia | ]. split; [congruence | intros [H _]; discriminate].
Qed.

Lemma X11_single_submission_witness :
  (List.length (inflight (handleSubmit_send Examples.answered)) <= 1)%nat /\
  (inflight (handleSubmit_send Examples.answered) <> [] <->
   submitting (handleSubmit_send Examples.answered) = true /\
   results (handleSubmit_send Examples.answered) = None).
Proof.
  apply (X11_single_submission Examples.two_questions).
  apply (reachable_step _ Examples.answered); [exact answered_reachable | ].
  apply (step_submit Examples.answered
           {| question_id := "q2"; question := "Style?";
              options := ["Video"; "Article"; "Course"] |}); reflexivity.
Defined.

(** X12: the Results view is final: once the recommendation has
    arrived no event of the wizard can fire any more. *)
Theorem X12_results_are_final qs st r :
  reachable qs st -> results st = Some r ->
  view st = ResultsView r /\ forall st', ~ step st st'.
Proof.
  intros Hreach Hres.
  destruct (reachable_quiz_invariant _ _ Hreach) as (_ & _ & Hload & _ & _ & Hsub & _).
  unfold submission_consistent in Hsub. rewrite Hres in Hsub.
  assert (Hview : view st = ResultsView r) by (unfold view; rewrite Hload, Hres; reflexivity).
  split; [exact Hview | ].
  assert (Hnone : displayed st = None) by (unfold displayed; rewrite Hview; reflexivity).
  intros st' Hstep.
  destruct Hstep as [ st q i st' Hq _ _ | st q Hq _ _ | st q Hq _
                    | st q Hq _ _ | st r' Hin ]; congruence.
Qed.

Lemma X12_results_are_final_witness :
  view (handleSubmit (Resolved Examples.recommendation) Examples.answered)
  = ResultsView Examples.recommendation /\
  forall st', ~ step (handleSubmit (Resolved Examples.recommendation) Examples.answered) st'.
Proof.
  apply (X12_results_are_final Examples.two_questions); [ | reflexivity].
  apply (reachable_step _ (handleSubmit_send Examples.answered)).
  - apply (reachable_step _ Examples.answered); [exact answered_reachable | ].
    apply (step_submit Examples.answered
             {| question_id := "q2"; question := "Style?";
                options := ["Video"; "Article"; "Course"] |}); reflexivity.
  - apply (step_settle (handleSubmit_send Examples.answered)
             (Resolved Examples.recommendation)).
    cbn. discriminate.
Defined.

Lemma filter_dense (a : JSArray.sparse QuizAnswer) :
  Forall (fun slot => slot <> None) a ->
  filter (fun s => match s with Some _ => true | None => false end) a = a.
Proof.
  induction 1 as [ | x rest Hx _ IH ]; [reflexivity | ].
  cbn [filter]. destruct x; [rewrite IH; reflexivity | congruence].
Qed.

(** X13: in every reachable state the "n/m answered" counter is the
    length of the answers array, never exceeds the number of
    questions, and, while nothing is being submitted, Submit is
    enabled exactly when the counter has reached it. *)
Theorem X13_answered_counter qs st :
  reachable qs st ->
  answeredCount st = List.length (answers st) /\
  (answeredCount st <= List.length (questions st))%nat /\
  (submitting st = false ->
   (submit_disabled st = false <-> answeredCount st = List.length (questions st))).
Proof.
  intros Hreach.
  destruct (reachable_invariant _ _ Hreach) as (Hlen & Hdense & _).
  assert (E : answeredCount st = List.length (answers st))
    by (unfold answeredCount; rewrite filter_dense by assumption; reflexivity).
  rewrite E. split; [reflexivity | split; [exact Hlen | ] ].
  intros Hs. unfold submit_disabled. rewrite Hs, orb_false_r, negb_false_iff.
  apply Nat.eqb_eq.
Qed.

Lemma X13_answered_counter_witness :
  answeredCount Examples.answered = 2%nat /\
  submit_disabled Examples.answered = false.
Proof.
  destruct (X13_answered_counter Examples.two_questions Examples.answered
              answered_reachable) as (Hcount & _ & Hiff).
  split; [exact Hcount | ].
  apply (Hiff eq_refl). exact Hcount.
Defined.

(** X14: whenever the question on display is the last one, so that
    Submit is rendered in place of Next, the progress bar is exactly
    100, whatever the number of questions. *)
Theorem X14_progress_full_on_last_question st q :
  displayed st = Some q -> next_rendered st = false ->
  Dashboard.array_length_ok (questions st) ->
  progress st = of_Z 100.
Proof.
  intros Hq Hr H32. unfold Dashboard.array_length_ok in H32.
  destruct (displayed_view _ _ Hq) as [_ Hnth].
  assert (Hlt : (currentQuestion st < List.length (questions st))%nat)
    by (apply nth_error_Some; congruence).
  unfold next_rendered in Hr. apply Z.ltb_ge in Hr.
  assert (E : (currentQuestion st + 1 = List.length (questions st))%nat) by lia.
  unfold progress. rewrite E, div_same by lia. reflexivity.
Qed.

Lemma X14_progress_full_on_last_question_witness :
  progress Examples.answered = of_Z 100.
Proof.
  apply (X14_progress_full_on_last_question Examples.answered
           {| question_id := "q2"; question := "Style?";
              options := ["Video"; "Article"; "Course"] |}).
  - reflexivity.
  - reflexivity.
  - unfold Dashboard.array_length_ok. cbn. lia.
Defined.

Lemma setCurrentQuestion_same st : setCurrentQuestion (currentQuestion st) st = st.
Proof. destruct st; reflexivity. Qed.

(** X15: navigation only moves the index.  Previous undoes Next
    whenever Next is rendered, Next undoes Previous away from the first
    question when the index is in range, Previous does nothing on the
    first question and Next nothing on the last, and neither touches
    the answers. *)
Theorem X15_navigation st :
  (next_rendered st = true -> handlePrevious (handleNext st) = st) /\
  (previous_disabled st = false ->
   (currentQuestion st < List.length (questions st))%nat ->
   handleNext (handlePrevious st) = st) /\
  (previous_disabled st = true -> handlePrevious st = st) /\
  (next_rendered st = false -> handleNext st = st) /\
  answers (handleNext st) = answers st /\
  answers (handlePrevious st) = answers st.
Proof.
  unfold next_rendered, previous_disabled, handleNext, handlePrevious.
  split; [ | split; [ | split; [ | split; [ | split ] ] ] ].
  - intros Hr. rewrite Hr.
    cbn [setCurrentQuestion currentQuestion].
    replace (0 <? currentQuestion st + 1)%nat with true
      by (symmetry; apply Nat.ltb_lt; lia).
    rewrite Nat.add_sub. destruct st; reflexivity.
  - intros Hp Hlt. apply Nat.eqb_neq in Hp.
    replace (0 <? currentQuestion st)%nat with true by (symmetry; apply Nat.ltb_lt; lia).
    cbn [setCurrentQuestion currentQuestion questions].
    replace (Z.of_nat (currentQuestion st - 1) <? Z.of_nat (List.length (questions st)) - 1)%Z
      with true by (symmetry; apply Z.ltb_lt; lia).
    replace (currentQuestion st - 1 + 1)%nat with (currentQuestion st) by lia.
    destruct st; reflexivity.
  - intros Hp. apply Nat.eqb_eq in Hp. rewrite Hp. reflexivity.
  - intros Hr. rewrite Hr. reflexivity.
  - destruct (Z.of_nat (currentQuestion st) <? Z.of_nat (List.length (questions st)) - 1)%Z;
      reflexivity.
  - destruct (0 <? currentQuestion st)%nat; reflexivity.
Qed.

Lemma X15_navigation_witness :
  handlePrevious (handleNext MoreExamples.first_answered) = MoreExamples.first_answered /\
  handleNext (handlePrevious Examples.answered) = Examples.answered.
Proof.
  destruct (X15_navigation MoreExamples.first_answered) as (Hnp & _).
  destruct (X15_navigation Examples.answered) as (_ & Hpn & _).
  split; [apply Hnp; reflexivity | apply Hpn; [reflexivity | cbn; lia] ].
Defined.

End QuizExtras.

(* ================================================================== *)
(** ** More on the forms                                              *)
(* ================================================================== *)

Section FormExtras.
Local Open Scope string_scope.

Lemma or_else_nonempty (detail : option string) (fallback : string) :
  fallback <> "" -> Signup.or_else detail fallback <> "".
Proof.
  intros Hf. unfold Signup.or_else. destruct detail as [s | ]; [ | exact Hf].
  destruct (String.eqb_spec s ""); assumption.
Qed.

(** X16: [signup] is called exactly when the two passwords agree and
    have at least 6 characters (UTF-16 code units, as [password.length]
    counts them), and then exactly once, with the e-mail,
    password and name of the form; the form navigates to the quiz
    exactly when that call succeeds, and the loading flag is false
    again when the handler is done. *)
Theorem X16_signup_called_iff_valid signup st :
  (Signup.signup_calls (snd (Signup.handleSubmit signup st))
   = [(Signup.email st, Signup.password st, Signup.name st)]
   <-> Signup.password st = Signup.confirmPassword st /\
       (6 <= JSString.length (Signup.password st))%nat) /\
  (Signup.signup_calls (snd (Signup.handleSubmit signup st)) = [] \/
   Signup.signup_calls (snd (Signup.handleSubmit signup st))
   = [(Signup.email st, Signup.password st, Signup.name st)]) /\
  (Signup.navigations (snd (Signup.handleSubmit signup st)) = ["/quiz"]
   <-> Signup.password st = Signup.confirmPassword st /\
       (6 <= JSString.length (Signup.password st))%nat /\
       signup (Signup.email st) (Signup.password st) (Signup.name st) = Signup.SignupOk) /\
  (Signup.signup_calls (snd (Signup.handleSubmit signup st)) <> [] ->
   Signup.loading (fst (Signup.handleSubmit signup st)) = false).
Proof.
  unfold Signup.handleSubmit.
  cbn [Signup.setError Signup.setLoading Signup.password Signup.confirmPassword
       Signup.email Signup.name].
  destruct (JSString_eqb_spec (Signup.password st) (Signup.confirmPassword st)) as [Eq | Hne];
    cbn [negb].
  - destruct (Nat.ltb_spec (JSString.length (Signup.password st)) 6) as [Hshort | Hlong].
    + cbn. repeat split; try (intros H; discriminate H); try (left; reflexivity);
        try (intros (_ & H & _); lia); try (intros (_ & H); lia); try congruence.
    + destruct (signup (Signup.email st) (Signup.password st) (Signup.name st)) eqn:Es;
        cbn; repeat split; try tauto; try (right; reflexivity); try discriminate;
        try (intros (_ & _ & H); discriminate H).
  - cbn. repeat split; try (intros H; discriminate H); try (left; reflexivity);
      try (intros (H & _); contradiction); try congruence.
Qed.

Lemma X16_signup_called_iff_valid_witness :
  Signup.signup_calls (snd (Signup.handleSubmit Examples.accepting MoreExamples.valid_form))
  = [(JSString.of_ascii "ada@example.org", JSString.of_ascii "secret1",
      JSString.of_ascii "Ada")] /\
  Signup.navigations (snd (Signup.handleSubmit Examples.accepting MoreExamples.valid_form))
  = ["/quiz"] /\
  Signup.loading (fst (Signup.handleSubmit Examples.accepting MoreExamples.valid_form))
  = false /\
  Signup.signup_calls
    (snd (Signup.handleSubmit Examples.accepting (Examples.accented_form 3))) = [].
Proof.
  destruct (X16_signup_called_iff_valid Examples.accepting MoreExamples.valid_form)
    as (Hcalls & _ & Hnav & Hload).
  destruct (X16_signup_called_iff_valid Examples.accepting (Examples.accented_form 3))
    as (Hcalls3 & Hcases3 & _).
  assert (Hc : Signup.signup_calls
                 (snd (Signup.handleSubmit Examples.accepting MoreExamples.valid_form))
               = [(JSString.of_ascii "ada@example.org", JSString.of_ascii "secret1",
                   JSString.of_ascii "Ada")]).
  { apply Hcalls. split; [reflexivity | cbn; lia]. }
  split; [exact Hc | split; [ | split ] ].
  - apply Hnav. split; [reflexivity | split; [cbn; lia | reflexivity] ].
  - apply Hload. rewrite Hc. discriminate.
  - destruct Hcases3 as [Hnone | Hone]; [exact Hnone | ].
    apply Hcalls3 in Hone. destruct Hone as [_ Hlen]. cbn in Hlen. lia.
Defined.

(** X17: after a sign-up that the server refuses, the inline error is
    never empty: it is the detail sent by the server when there is a
    non-empty one, the generic message otherwise; nothing is navigated
    to and the form is usable again. *)
Theorem X17_signup_failure_message signup st detail :
  Signup.password st = Signup.confirmPassword st ->
  (6 <= JSString.length (Signup.password st))%nat ->
  signup (Signup.email st) (Signup.password st) (Signup.name st)
  = Signup.SignupFailed detail ->
  Signup.error (fst (Signup.handleSubmit signup st))
  = Signup.or_else detail "Signup failed. Please try again." /\
  Signup.error (fst (Signup.handleSubmit signup st)) <> "" /\
  (forall msg, detail = Some msg -> msg <> "" ->
               Signup.error (fst (Signup.handleSubmit signup st)) = msg) /\
  Signup.navigations (snd (Signup.handleSubmit signup st)) = [] /\
  Signup.loading (fst (Signup.handleSubmit signup st)) = false.
Proof.
  intros Eq Hlen Hfail. unfold Signup.handleSubmit.
  cbn [Signup.setError Signup.setLoading Signup.password Signup.confirmPassword
       Signup.email Signup.name].
  rewrite Eq. destruct (JSString_eqb_spec (Signup.confirmPassword st)
                         (Signup.confirmPassword st)) as [_ | Habs]; [ | congruence].
  cbn [negb]. rewrite <- Eq.
  destruct (Nat.ltb_spec (JSString.length (Signup.password st)) 6) as [Hshort | _]; [lia | ].
  rewrite Hfail. cbn [fst snd Signup.error Signup.navigations Signup.loading
                      Signup.setError Signup.setLoading].
  split; [reflexivity | split; [ | split; [ | split; reflexivity ] ] ].
  - apply or_else_nonempty. discriminate.
  - intros msg -> Hmsg. unfold Signup.or_else.
    destruct (String.eqb_spec msg ""); [contradiction | reflexivity].
Qed.

Lemma X17_signup_failure_message_witness :
  Signup.error (fst (Signup.handleSubmit MoreExamples.refusing MoreExamples.valid_form))
  = "Signup failed. Please try again." /\
  Signup.navigations (snd (Signup.handleSubmit MoreExamples.refusing MoreExamples.valid_form))
  = [].
Proof.
  destruct (X17_signup_failure_message MoreExamples.refusing MoreExamples.valid_form
              (Some "")) as (Herr & _ & _ & Hnav & _).
  - reflexivity.
  - cbn. lia.
  - reflexivity.
  - split; [exact Herr | exact Hnav].
Defined.

(** X18: the login form validates nothing: whatever the fields hold,
    even an empty password, [login] is called exactly once with them;
    the form navigates home exactly when the call succeeds, clearing
    any earlier error, shows a non-empty error when it fails, and the
    loading flag is false again in both cases. *)
Theorem X18_login_always_calls login st :
  Login.login_calls (snd (Login.handleSubmit login st))
  = [(Login.email st, Login.password st)] /\
  Login.loading (fst (Login.handleSubmit login st)) = false /\
  (Login.navigations (snd (Login.handleSubmit login st)) = ["/"]
   <-> login (Login.email st) (Login.password st) = Login.LoginOk) /\
  (login (Login.email st) (Login.password st) = Login.LoginOk ->
   Login.error (fst (Login.handleSubmit login st)) = "") /\
  (login (Login.email st) (Login.password st) <> Login.LoginOk ->
   Login.error (fst (Login.handleSubmit login st)) <> "" /\
   Login.navigations (snd (Login.handleSubmit login st)) = []).
Proof.
  unfold Login.handleSubmit.
  cbn [Login.setError Login.setLoading Login.email Login.password].
  destruct (login (Login.email st) (Login.password st)) as [ | detail ];
    cbn [fst snd Login.login_calls Login.navigations Login.loading Login.error
         Login.setError Login.setLoading].
  - repeat split; try reflexivity; try congruence.
  - split; [reflexivity | split; [reflexivity | split; [ | split ] ] ].
    + split; discriminate.
    + discriminate.
    + intros _. split; [apply or_else_nonempty; discriminate | reflexivity].
Qed.

Lemma X18_login_always_calls_witness :
  Login.login_calls (snd (Login.handleSubmit MoreExamples.rejecting MoreExamples.login_form))
  = [("ada@example.org", "")] /\
  Login.error (fst (Login.handleSubmit MoreExamples.rejecting MoreExamples.login_form))
  <> "".
Proof.
  destruct (X18_login_always_calls MoreExamples.rejecting MoreExamples.login_form)
    as (Hcalls & _ & _ & _ & Hfail).
  split; [exact Hcalls | ].
  apply Hfail. discriminate.
Defined.

End FormExtras.

(* ================================================================== *)
(** ** More on the achievement components                             *)
(* ================================================================== *)

Section AchievementExtras.
Import Achievements Popup.
Local Open Scope string_scope.

Lemma assoc_some_in {A : Type} (key : string) (l : list (string * A)) (v : A) :
  assoc key l = Some v -> In (key, v) l.
Proof.
  induction l as [ | [k w] rest IH ]; cbn [assoc]; [discriminate | ].
  destruct (String.eqb_spec k key) as [-> | _].
  - intros H. injection H as <-. left. reflexivity.
  - intros H. right. apply IH. exact H.
Qed.

Lemma enumerated_iff_own (key : string) :
  enumerated key = true <-> In key (map fst ACHIEVEMENT_DATA).
Proof.
  unfold enumerated. rewrite existsb_exists. split.
  - intros (y & Hy & E). apply String.eqb_eq in E. subst y. exact Hy.
  - intros H. exists key. split; [exact H | apply String.eqb_refl].
Qed.

(** X19: the badge renders nothing exactly for the identifiers that
    are neither one of the five of the table nor a property name of
    [Object.prototype]; for one of the five it always renders, in every
    size, with the colour, glyph and name of that entry of the table. *)
Theorem X19_badge_rendering achievementId size showTooltip :
  (AchievementBadge achievementId size showTooltip = None <->
   enumerated achievementId = false /\
   ~ In achievementId (map fst Object_prototype)) /\
  (enumerated achievementId = true ->
   exists a badge,
     In (achievementId, a) ACHIEVEMENT_DATA /\
     AchievementBadge achievementId size showTooltip = Some badge /\
     achievement_color badge = Some (color a) /\
     icon_child badge = Some (icon a) /\
     (size <> small -> name_span badge = Some (Some (name a))) /\
     (showTooltip = true -> title badge = name a ++ ": " ++ description a)).
Proof.
  split.
  - split.
    + intros Hnone. unfold AchievementBadge, lookup in Hnone.
      destruct (assoc achievementId ACHIEVEMENT_DATA) as [a | ] eqn:Eown; [discriminate | ].
      destruct (assoc achievementId Object_prototype) as [v | ] eqn:Eproto; [discriminate | ].
      split.
      * destruct (enumerated achievementId) eqn:Een; [ | reflexivity].
        apply enumerated_iff_own in Een. apply assoc_none_iff in Eown. contradiction.
      * apply assoc_none_iff. exact Eproto.
    + intros [Hen Hproto]. apply unknown_badge_renders_nothing; assumption.
  - intros Hen. apply enumerated_iff_own in Hen.
    destruct (assoc achievementId ACHIEVEMENT_DATA) as [a | ] eqn:Eown.
    + exists a. unfold AchievementBadge, lookup. rewrite Eown.
      eexists. split; [apply assoc_some_in; exact Eown | ].
      split; [reflexivity | ].
      cbn [achievement_color icon_child name_span title get_color get_icon get_name
           get_description interpolate].
      split; [reflexivity | split; [reflexivity | split] ].
      * intros Hsize. destruct size; [contradiction | reflexivity | reflexivity].
      * intros ->. reflexivity.
    + apply assoc_none_iff in Eown. contradiction.
Qed.

Lemma X19_badge_rendering_witness :
  exists a badge,
    In ("speed_demon", a) ACHIEVEMENT_DATA /\
    AchievementBadge "speed_demon" large true = Some badge /\
    title badge = name a ++ ": " ++ description a.
Proof.
  destruct (X19_badge_rendering "speed_demon" large true) as [_ Hown].
  destruct (Hown eq_refl) as (a & badge & Hin & Hb & _ & _ & _ & Ht).
  exists a, badge. split; [exact Hin | split; [exact Hb | apply Ht; reflexivity] ].
Defined.

(** X20: the popup and the badge agree: the popup renders for exactly
    the identifiers the badge renders for, and then shows the name and
    the glyph the badge shows. *)
Theorem X20_popup_agrees_with_badge achievement size showTooltip :
  (AchievementPopup achievement = None <->
   AchievementBadge achievement size showTooltip = None) /\
  (forall popup badge,
      AchievementPopup achievement = Some popup ->
      AchievementBadge achievement size showTooltip = Some badge ->
      popup_icon popup = icon_child badge /\
      (size <> small -> name_span badge = Some (popup_name popup)) /\
      (size = large -> description_span badge = Some (popup_description popup))).
Proof.
  unfold AchievementPopup, AchievementBadge.
  destruct (lookup achievement) as [v | ].
  - split; [split; discriminate | ].
    intros popup badge Hp Hb. injection Hp as <-. injection Hb as <-.
    cbn [popup_icon popup_name popup_description icon_child name_span description_span].
    split; [reflexivity | split].
    + intros Hs. destruct size; [contradiction | reflexivity | reflexivity].
    + intros ->. reflexivity.
  - split; [tauto | ]. intros popup badge Hp. discriminate.
Qed.

Lemma X20_popup_agrees_with_badge_witness :
  exists popup badge,
    AchievementPopup "first_step" = Some popup /\
    AchievementBadge "first_step" medium false = Some badge /\
    name_span badge = Some (popup_name popup).
Proof.
  destruct (X20_popup_agrees_with_badge "first_step" medium false) as [_ Hagree].
  eexists. eexists. split; [reflexivity | split; [reflexivity | ] ].
  destruct (Hagree _ _ eq_refl eq_refl) as (_ & Hname & _).
  apply Hname. discriminate.
Defined.

End AchievementExtras.
